(** * mousepad: a mouse event widget for Pure Data

    Shallow embedding of [mousepad.c] and the properties of its colour codec,
    pixel layout, event callbacks, settings and lifecycle hooks.

    Conventions of the embedding.
    - A C [int] is a [Z]; every arithmetic result is brought back into the
      32-bit two's complement range by [wrap].  Integer division is partial:
      it has no result for a zero divisor (nor for [INT_MIN / -1]).
    - A [t_float] is a rational number.  [(int)f] truncates toward zero
      ([cast_int]); where the truncated value is not an int, which C leaves
      undefined, it is [INT_MIN], the result on x86-64.  The cast through
      [t_int] in mousepad_motion keeps the low 32 bits of the truncated value
      ([float2int]).  [(t_float)n] is taken to be exact, as it is in single
      precision for every integer up to 2^24.
    - A [t_symbol*] is the string it interns ([gensym] is the identity), so
      pointer equality of symbols is string equality.
    - A [char] read as an int is its code from 0 to 255; where char is
      signed the codes from 128 on read negative, and hexcolor2int treats
      them alike: they are neither the terminator nor a digit.
    - A pointer is the address it holds, a [Z].  What Pd provides (m_pd.h,
      g_canvas.h and the functions behind them) is the record [t_host].
    - A callback is a computation in the monad [M]: it reads and updates the
      object and the table of bound receivers, may stop on a trap, and writes
      the messages, drawing commands and host calls it issues, in order.
      What receivers do with a message is not part of the callback. *)

From Stdlib Require Import ZArith QArith List String Ascii Bool Lia.
Import ListNotations.
Local Open Scope string_scope.
Local Open Scope list_scope.
Local Open Scope Z_scope.

(** ** Machine integers, floats and C strings *)

Definition INT_MIN : Z := - 2 ^ 31.
Definition INT_MAX : Z := 2 ^ 31 - 1.

Definition wrap (z : Z) : Z := (z + 2 ^ 31) mod 2 ^ 32 - 2 ^ 31.

Definition in_int (z : Z) : Prop := INT_MIN <= z <= INT_MAX.

Definition iadd (a b : Z) : Z := wrap (a + b).
Definition isub (a b : Z) : Z := wrap (a - b).
Definition imul (a b : Z) : Z := wrap (a * b).
Definition ishl (a n : Z) : Z := wrap (Z.shiftl a n).

(* a / b on ints: truncating, trapping on b = 0 and on INT_MIN / -1 *)
Definition idiv (a b : Z) : option Z :=
  if b =? 0 then None
  else if (a =? INT_MIN) && (b =? -1) then None
  else Some (Z.quot a b).

Definition t_float : Type := Q.

(* (t_int)f followed by the narrowing to int, as in mousepad_motion: the
   value truncated toward zero, of which the int keeps the low 32 bits *)
Definition float2int (f : t_float) : Z :=
  wrap (Z.quot (Qnum f) (Z.pos (Qden f))).

(* (int)f, and a float stored into an int: the value truncated toward zero.
   When that is not an int, C leaves the result undefined; the conversion
   instruction of x86-64 (cvttss2si) then gives INT_MIN, and that is the
   result taken here *)
Definition cast_int (f : t_float) : Z :=
  let t := Z.quot (Qnum f) (Z.pos (Qden f)) in
  if (INT_MIN <=? t) && (t <=? INT_MAX) then t else INT_MIN.

(* (t_float)n *)
Definition int2float (n : Z) : t_float := inject_Z n.

(* s[i] of a NUL-terminated string, as an int; the terminator reads 0 *)
Definition char_at (s : string) (i : Z) : Z :=
  if i <? 0 then 0
  else match String.get (Z.to_nat i) s with
       | Some a => Z.of_N (N_of_ascii a)
       | None => 0
       end.

(* storing an int into a char *)
Definition char_of_int (c : Z) : ascii := ascii_of_N (Z.to_N (c mod 256)).

(* a[i] and a[i] = v on an array; [d] is read outside the array *)
Definition aget {A : Type} (d : A) (a : list A) (i : Z) : A :=
  nth (Z.to_nat i) a d.

Fixpoint aset_nat {A : Type} (a : list A) (i : nat) (v : A) : list A :=
  match a, i with
  | [], _ => []
  | _ :: t, O => v :: t
  | x :: t, S i' => x :: aset_nat t i' v
  end.

Definition aset {A : Type} (a : list A) (i : Z) (v : A) : list A :=
  aset_nat a (Z.to_nat i) v.

(** ** Symbols *)

Definition t_symbol : Type := string.

Definition gensym (s : string) : t_symbol := s.

Definition sym_eqb (a b : t_symbol) : bool := String.eqb a b.

Definition s_ : t_symbol := gensym EmptyString.            (* &s_, the empty symbol *)
Definition s_float : t_symbol := gensym "float".  (* &s_float *)

Definition symEmpty  : t_symbol := gensym "empty".
Definition symSize   : t_symbol := gensym "size".
Definition symColor  : t_symbol := gensym "color".
Definition symPos    : t_symbol := gensym "pos".
Definition symZoom   : t_symbol := gensym "zoom".
Definition symNames  : t_symbol := gensym "names".
Definition symButton : t_symbol := gensym "button".
Definition symDrag   : t_symbol := gensym "drag".
Definition symHover  : t_symbol := gensym "hover".
Definition symDeltas : t_symbol := gensym "deltas".

(** ** Constants *)

Definition COLOR_SELECTED : Z := 0x0000FF.
Definition COLOR_NORMAL   : Z := 0x000000.
Definition DEFCOLOR       : Z := 0xDDDDDD.
Definition DEFSIZE        : Z := 64.
Definition DEFZOOM        : Z := 1.
Definition IOHEIGHT       : Z := 3.

Definition BASE   : Z := 1.
Definition INLET  : Z := 2.
Definition OUTLET : Z := 4.

(** ** Colour codec *)

(* the loop of int2hexcolor: [n] iterations left, writing hexcolor[i] *)
Fixpoint int2hexcolor_loop (n : nat) (intcolor nibblemask j : Z) : string :=
  match n with
  | O => EmptyString
  | S n' =>
      let nibble := Z.shiftr (Z.land intcolor nibblemask) (4 * j) in
      let c := if nibble <? 10 then nibble + 48 else nibble + 55 in
      String (char_of_int c)
             (int2hexcolor_loop n' intcolor (Z.shiftr nibblemask 4) (j - 1))
  end.

Definition int2hexcolor (intcolor : Z) : t_symbol :=
  gensym (String "#" (int2hexcolor_loop 6 intcolor 0xF00000 5)).

(* first loop of hexcolor2int: returns the final i and intbuf *)
Fixpoint hexcolor2int_scan (n : nat) (hexcolor : string) (i : Z)
         (intbuf : list Z) : Z * list Z :=
  match n with
  | O => (i, intbuf)
  | S n' =>
      let h := char_at hexcolor (i + 1) in
      if h =? 0 then (i, intbuf)
      else
        let intbuf' :=
          if (48 <=? h) && (h <=? 57) then aset intbuf i (h - 48)
          else if (65 <=? h) && (h <=? 70) then aset intbuf i (h - 55)
          else if (97 <=? h) && (h <=? 102) then aset intbuf i (h - 87)
          else intbuf in
        hexcolor2int_scan n' hexcolor (i + 1) intbuf'
  end.

(* the 'up-sample-and-hold' of three digits to six *)
Definition hexcolor2int_hold (intbuf : list Z) : list Z :=
  let b := aset intbuf 5 (aget 0 intbuf 2) in
  let b := aset b 4 (aget 0 b 5) in
  let b := aset b 3 (aget 0 b 1) in
  let b := aset b 2 (aget 0 b 3) in
  aset b 1 (aget 0 b 0).

(* second loop of hexcolor2int *)
Fixpoint hexcolor2int_pack (n : nat) (intbuf : list Z) (i intcolor : Z) : Z :=
  match n with
  | O => intcolor
  | S n' =>
      let intcolor := ishl intcolor 4 in
      let intcolor := iadd intcolor (aget 0 intbuf i) in
      hexcolor2int_pack n' intbuf (i + 1) intcolor
  end.

Definition hexcolor2int (hexcolor : string) : Z :=
  let '(i, intbuf) := hexcolor2int_scan 6 hexcolor 0 [0; 0; 0; 0; 0; 0] in
  let intbuf := if i =? 3 then hexcolor2int_hold intbuf else intbuf in
  hexcolor2int_pack 6 intbuf 0 0.

(** ** Atoms and the argument helpers of m_pd.h *)

Inductive t_atom : Type :=
| A_NULL
| A_FLOAT (w_float : t_float)
| A_SYMBOL (w_symbol : t_symbol)
| A_POINTER
| A_SEMI
| A_COMMA
| A_DOLLAR (w_index : Z)
| A_DOLLSYM (w_symbol : t_symbol).

Definition IS_A_FLOAT (atom : list t_atom) (index : Z) : bool :=
  match aget A_NULL atom index with A_FLOAT _ => true | _ => false end.

Definition IS_A_SYMBOL (atom : list t_atom) (index : Z) : bool :=
  match aget A_NULL atom index with A_SYMBOL _ => true | _ => false end.

(* argv[index].a_w.w_float *)
Definition a_w_float (atom : list t_atom) (index : Z) : t_float :=
  match aget A_NULL atom index with A_FLOAT f => f | _ => 0%Q end.

Definition atom_getsymbol (a : t_atom) : t_symbol :=
  match a with A_SYMBOL s => s | _ => s_float end.

Definition atom_getfloatarg (which argc : Z) (argv : list t_atom) : t_float :=
  if argc <=? which then 0%Q
  else match aget A_NULL argv which with A_FLOAT f => f | _ => 0%Q end.

Definition atom_getsymbolarg (which argc : Z) (argv : list t_atom) : t_symbol :=
  if argc <=? which then s_
  else match aget A_NULL argv which with A_SYMBOL s => s | _ => s_ end.

(* the argc that goes with an argv *)
Definition argc_of (argv : list t_atom) : Z := Z.of_nat (List.length argv).

(* sprintf("%#lX", n) *)
Fixpoint upper_hex (n : nat) (x : Z) (acc : string) : string :=
  match n with
  | O => acc
  | S n' =>
      if x =? 0 then acc
      else
        let d := x mod 16 in
        let c := if d <? 10 then d + 48 else d + 55 in
        upper_hex n' (x / 16) (String (char_of_int c) acc)
  end.

Definition sprintf_lX (n : Z) : string :=
  let u := n mod 2 ^ 64 in
  if u =? 0 then "0" else ("0X" ++ upper_hex 16 u EmptyString)%string.

(** ** The host: Pd's canvas and object system, as far as the code calls it *)

Record t_host : Type := mk_host {
  IOWIDTH : Z;                                  (* g_canvas.h *)
  MAXPDSTRING : Z;                              (* m_pd.h *)
  te_pix : Z -> Z;            (* int to the declared type of te_xpix, te_ypix *)
  glist_isvisible : Z -> bool;
  glist_getcanvas : Z -> Z;
  text_xpix : Z -> Z -> Z;                      (* of te_xpix and the glist *)
  text_ypix : Z -> Z -> Z;                      (* of te_ypix and the glist *)
  canvas_realizedollar : Z -> t_symbol -> t_symbol;
  canvas_getcurrent : Z;
  atom_string : t_atom -> Z -> string;
  c_externdir : t_symbol;                       (* z->g_pd->c_externdir *)
  sys_open : string -> Z
}.

(** ** What a callback does to its surroundings *)

Inductive gui_cmd : Type :=
| Tk_create_rectangle (canv p0 p1 p2 p3 w obj part : Z)
| Tk_coords (canv obj part p0 p1 p2 p3 : Z)
| Tk_itemconfigure_outline (canv obj part color : Z)
| Tk_itemconfigure_fill (canv obj part color : Z)
| Tk_delete (canv obj part : Z).

Inductive post_arg : Type :=
| Pnone
| Pint (n : Z)
| Pstr (s : string).

Inductive event : Type :=
| Sys_vgui (c : gui_cmd)
| Outlet_anything (s : t_symbol) (argv : list t_atom)
| Typedmess (dest : t_symbol) (s : t_symbol) (argv : list t_atom)
| Canvas_fixlinesfor (gl : Z)
| Canvas_deletelinesfor (gl : Z)
| Sys_unqueuegui
| Glist_grab (gl : Z) (xpix ypix : t_float)
| Pd_bind (s : t_symbol)
| Pd_unbind (s : t_symbol)
| Post (fmt : string) (arg : post_arg)
| Canvas_dirty (gl : Z) (n : Z)
| Outlet_new (s : t_symbol)
| Clock_delay (delaytime : Z)
| Binbuf_addv (atoms : list t_atom)
| Sys_close (fd : Z)
| Canvas_setargs (argv : list t_atom)
| Glob_evalfile (name dir : t_symbol).

(** ** The object *)

(* t_mousepad; [self] is the address of the struct, the t_object part is
   reduced to the fields the code touches, and initclock is left to the host *)
Record t_mousepad : Type := mk_mousepad {
  self : Z;                           (* address of the object, (t_int)mp *)
  te_xpix : Z;                        (* obj.te_xpix *)
  te_ypix : Z;                        (* obj.te_ypix *)
  te_binbuf : list t_atom;            (* obj.te_binbuf, the text of the object box *)
  glist : Z;                          (* owning glist or 'canvas' *)
  width : Z;                          (* object rectangle width (nominal) *)
  height : Z;                         (* object rectangle height (nominal) *)
  xval : Z;                           (* mouse x relative to object (nominal) *)
  yval : Z;                           (* mouse y relative to object (nominal) *)
  pixw : Z;                           (* width expressed in true pixels *)
  pixh : Z;                           (* height expressed in true pixels *)
  zoomfactor : Z;                     (* zoom factor of owning glist (1 or 2) *)
  buttonstate : Z;                    (* mouse button state 1 or 0 *)
  intcolor : Z;                       (* fill color expressed as integer *)
  sendname : t_symbol;                (* settable send name (expanded) *)
  receivename : t_symbol;             (* settable receive name (expanded) *)
  sendname_unexpanded : t_symbol;
  receivename_unexpanded : t_symbol;
  objID : t_symbol;                   (* object pointer expressed as hex symbol *)
  sendname_fixed : t_symbol;          (* from-mousepad-<objID> *)
  receivename_fixed : t_symbol;       (* to-mousepad-<objID> *)
  out : t_atom * t_atom * t_atom                   (* t_atom out[3] *)
}.

(* field assignments mp->f = v *)
Definition set_te_xpix (v : Z) (mp : t_mousepad) : t_mousepad :=
  mk_mousepad (self mp) v (te_ypix mp) (te_binbuf mp) (glist mp) (width mp)
    (height mp) (xval mp) (yval mp) (pixw mp) (pixh mp) (zoomfactor mp)
    (buttonstate mp) (intcolor mp) (sendname mp) (receivename mp)
    (sendname_unexpanded mp) (receivename_unexpanded mp) (objID mp)
    (sendname_fixed mp) (receivename_fixed mp) (out mp).

Definition set_te_ypix (v : Z) (mp : t_mousepad) : t_mousepad :=
  mk_mousepad (self mp) (te_xpix mp) v (te_binbuf mp) (glist mp) (width mp)
    (height mp) (xval mp) (yval mp) (pixw mp) (pixh mp) (zoomfactor mp)
    (buttonstate mp) (intcolor mp) (sendname mp) (receivename mp)
    (sendname_unexpanded mp) (receivename_unexpanded mp) (objID mp)
    (sendname_fixed mp) (receivename_fixed mp) (out mp).

Definition set_te_binbuf (v : list t_atom) (mp : t_mousepad) : t_mousepad :=
  mk_mousepad (self mp) (te_xpix mp) (te_ypix mp) v (glist mp) (width mp)
    (height mp) (xval mp) (yval mp) (pixw mp) (pixh mp) (zoomfactor mp)
    (buttonstate mp) (intcolor mp) (sendname mp) (receivename mp)
    (sendname_unexpanded mp) (receivename_unexpanded mp) (objID mp)
    (sendname_fixed mp) (receivename_fixed mp) (out mp).

Definition set_glist (v : Z) (mp : t_mousepad) : t_mousepad :=
  mk_mousepad (self mp) (te_xpix mp) (te_ypix mp) (te_binbuf mp) v (width
    mp) (height mp) (xval mp) (yval mp) (pixw mp) (pixh mp) (zoomfactor mp)
    (buttonstate mp) (intcolor mp) (sendname mp) (receivename mp)
    (sendname_unexpanded mp) (receivename_unexpanded mp) (objID mp)
    (sendname_fixed mp) (receivename_fixed mp) (out mp).

Definition set_width (v : Z) (mp : t_mousepad) : t_mousepad :=
  mk_mousepad (self mp) (te_xpix mp) (te_ypix mp) (te_binbuf mp) (glist mp)
    v (height mp) (xval mp) (yval mp) (pixw mp) (pixh mp) (zoomfactor mp)
    (buttonstate mp) (intcolor mp) (sendname mp) (receivename mp)
    (sendname_unexpanded mp) (receivename_unexpanded mp) (objID mp)
    (sendname_fixed mp) (receivename_fixed mp) (out mp).

Definition set_height (v : Z) (mp : t_mousepad) : t_mousepad :=
  mk_mousepad (self mp) (te_xpix mp) (te_ypix mp) (te_binbuf mp) (glist mp)
    (width mp) v (xval mp) (yval mp) (pixw mp) (pixh mp) (zoomfactor mp)
    (buttonstate mp) (intcolor mp) (sendname mp) (receivename mp)
    (sendname_unexpanded mp) (receivename_unexpanded mp) (objID mp)
    (sendname_fixed mp) (receivename_fixed mp) (out mp).

Definition set_xval (v : Z) (mp : t_mousepad) : t_mousepad :=
  mk_mousepad (self mp) (te_xpix mp) (te_ypix mp) (te_binbuf mp) (glist mp)
    (width mp) (height mp) v (yval mp) (pixw mp) (pixh mp) (zoomfactor mp)
    (buttonstate mp) (intcolor mp) (sendname mp) (receivename mp)
    (sendname_unexpanded mp) (receivename_unexpanded mp) (objID mp)
    (sendname_fixed mp) (receivename_fixed mp) (out mp).

Definition set_yval (v : Z) (mp : t_mousepad) : t_mousepad :=
  mk_mousepad (self mp) (te_xpix mp) (te_ypix mp) (te_binbuf mp) (glist mp)
    (width mp) (height mp) (xval mp) v (pixw mp) (pixh mp) (zoomfactor mp)
    (buttonstate mp) (intcolor mp) (sendname mp) (receivename mp)
    (sendname_unexpanded mp) (receivename_unexpanded mp) (objID mp)
    (sendname_fixed mp) (receivename_fixed mp) (out mp).

Definition set_pixw (v : Z) (mp : t_mousepad) : t_mousepad :=
  mk_mousepad (self mp) (te_xpix mp) (te_ypix mp) (te_binbuf mp) (glist mp)
    (width mp) (height mp) (xval mp) (yval mp) v (pixh mp) (zoomfactor mp)
    (buttonstate mp) (intcolor mp) (sendname mp) (receivename mp)
    (sendname_unexpanded mp) (receivename_unexpanded mp) (objID mp)
    (sendname_fixed mp) (receivename_fixed mp) (out mp).

Definition set_pixh (v : Z) (mp : t_mousepad) : t_mousepad :=
  mk_mousepad (self mp) (te_xpix mp) (te_ypix mp) (te_binbuf mp) (glist mp)
    (width mp) (height mp) (xval mp) (yval mp) (pixw mp) v (zoomfactor mp)
    (buttonstate mp) (intcolor mp) (sendname mp) (receivename mp)
    (sendname_unexpanded mp) (receivename_unexpanded mp) (objID mp)
    (sendname_fixed mp) (receivename_fixed mp) (out mp).

Definition set_zoomfactor (v : Z) (mp : t_mousepad) : t_mousepad :=
  mk_mousepad (self mp) (te_xpix mp) (te_ypix mp) (te_binbuf mp) (glist mp)
    (width mp) (height mp) (xval mp) (yval mp) (pixw mp) (pixh mp) v
    (buttonstate mp) (intcolor mp) (sendname mp) (receivename mp)
    (sendname_unexpanded mp) (receivename_unexpanded mp) (objID mp)
    (sendname_fixed mp) (receivename_fixed mp) (out mp).

Definition set_buttonstate (v : Z) (mp : t_mousepad) : t_mousepad :=
  mk_mousepad (self mp) (te_xpix mp) (te_ypix mp) (te_binbuf mp) (glist mp)
    (width mp) (height mp) (xval mp) (yval mp) (pixw mp) (pixh mp)
    (zoomfactor mp) v (intcolor mp) (sendname mp) (receivename mp)
    (sendname_unexpanded mp) (receivename_unexpanded mp) (objID mp)
    (sendname_fixed mp) (receivename_fixed mp) (out mp).

Definition set_intcolor (v : Z) (mp : t_mousepad) : t_mousepad :=
  mk_mousepad (self mp) (te_xpix mp) (te_ypix mp) (te_binbuf mp) (glist mp)
    (width mp) (height mp) (xval mp) (yval mp) (pixw mp) (pixh mp)
    (zoomfactor mp) (buttonstate mp) v (sendname mp) (receivename mp)
    (sendname_unexpanded mp) (receivename_unexpanded mp) (objID mp)
    (sendname_fixed mp) (receivename_fixed mp) (out mp).

Definition set_sendname (v : t_symbol) (mp : t_mousepad) : t_mousepad :=
  mk_mousepad (self mp) (te_xpix mp) (te_ypix mp) (te_binbuf mp) (glist mp)
    (width mp) (height mp) (xval mp) (yval mp) (pixw mp) (pixh mp)
    (zoomfactor mp) (buttonstate mp) (intcolor mp) v (receivename mp)
    (sendname_unexpanded mp) (receivename_unexpanded mp) (objID mp)
    (sendname_fixed mp) (receivename_fixed mp) (out mp).

Definition set_receivename (v : t_symbol) (mp : t_mousepad) : t_mousepad :=
  mk_mousepad (self mp) (te_xpix mp) (te_ypix mp) (te_binbuf mp) (glist mp)
    (width mp) (height mp) (xval mp) (yval mp) (pixw mp) (pixh mp)
    (zoomfactor mp) (buttonstate mp) (intcolor mp) (sendname mp) v
    (sendname_unexpanded mp) (receivename_unexpanded mp) (objID mp)
    (sendname_fixed mp) (receivename_fixed mp) (out mp).

Definition set_sendname_unexpanded (v : t_symbol) (mp : t_mousepad) : t_mousepad :=
  mk_mousepad (self mp) (te_xpix mp) (te_ypix mp) (te_binbuf mp) (glist mp)
    (width mp) (height mp) (xval mp) (yval mp) (pixw mp) (pixh mp)
    (zoomfactor mp) (buttonstate mp) (intcolor mp) (sendname mp)
    (receivename mp) v (receivename_unexpanded mp) (objID mp)
    (sendname_fixed mp) (receivename_fixed mp) (out mp).

Definition set_receivename_unexpanded (v : t_symbol) (mp : t_mousepad) : t_mousepad :=
  mk_mousepad (self mp) (te_xpix mp) (te_ypix mp) (te_binbuf mp) (glist mp)
    (width mp) (height mp) (xval mp) (yval mp) (pixw mp) (pixh mp)
    (zoomfactor mp) (buttonstate mp) (intcolor mp) (sendname mp)
    (receivename mp) (sendname_unexpanded mp) v (objID mp) (sendname_fixed
    mp) (receivename_fixed mp) (out mp).

Definition set_objID (v : t_symbol) (mp : t_mousepad) : t_mousepad :=
  mk_mousepad (self mp) (te_xpix mp) (te_ypix mp) (te_binbuf mp) (glist mp)
    (width mp) (height mp) (xval mp) (yval mp) (pixw mp) (pixh mp)
    (zoomfactor mp) (buttonstate mp) (intcolor mp) (sendname mp)
    (receivename mp) (sendname_unexpanded mp) (receivename_unexpanded mp) v
    (sendname_fixed mp) (receivename_fixed mp) (out mp).

Definition set_sendname_fixed (v : t_symbol) (mp : t_mousepad) : t_mousepad :=
  mk_mousepad (self mp) (te_xpix mp) (te_ypix mp) (te_binbuf mp) (glist mp)
    (width mp) (height mp) (xval mp) (yval mp) (pixw mp) (pixh mp)
    (zoomfactor mp) (buttonstate mp) (intcolor mp) (sendname mp)
    (receivename mp) (sendname_unexpanded mp) (receivename_unexpanded mp)
    (objID mp) v (receivename_fixed mp) (out mp).

Definition set_receivename_fixed (v : t_symbol) (mp : t_mousepad) : t_mousepad :=
  mk_mousepad (self mp) (te_xpix mp) (te_ypix mp) (te_binbuf mp) (glist mp)
    (width mp) (height mp) (xval mp) (yval mp) (pixw mp) (pixh mp)
    (zoomfactor mp) (buttonstate mp) (intcolor mp) (sendname mp)
    (receivename mp) (sendname_unexpanded mp) (receivename_unexpanded mp)
    (objID mp) (sendname_fixed mp) v (out mp).

Definition set_out (v : t_atom * t_atom * t_atom) (mp : t_mousepad) : t_mousepad :=
  mk_mousepad (self mp) (te_xpix mp) (te_ypix mp) (te_binbuf mp) (glist mp)
    (width mp) (height mp) (xval mp) (yval mp) (pixw mp) (pixh mp)
    (zoomfactor mp) (buttonstate mp) (intcolor mp) (sendname mp)
    (receivename mp) (sendname_unexpanded mp) (receivename_unexpanded mp)
    (objID mp) (sendname_fixed mp) (receivename_fixed mp) v.

(* the zeroed struct that pd_new returns; a NULL symbol reads as s_ *)
Definition pd_new (addr : Z) : t_mousepad :=
  mk_mousepad addr 0 0 [] 0 0 0 0 0 0 0 0 0 0 s_ s_ s_ s_ s_ s_ s_
              (A_NULL, A_NULL, A_NULL).

(* the object together with the receivers bound to each symbol: the pair
   (s, x) stands for one pd_bind(x, s) that has not been undone *)
Record world : Type := mk_world {
  obj : t_mousepad;
  bindings : list (t_symbol * Z)
}.

(** ** The monad of callbacks *)

Definition M (A : Type) : Type := world -> option (A * world * list event).

Definition ret {A : Type} (a : A) : M A := fun w => Some (a, w, []).

Definition bind {A B : Type} (c : M A) (k : A -> M B) : M B :=
  fun w =>
    match c w with
    | None => None
    | Some (a, w1, t1) =>
        match k a w1 with
        | None => None
        | Some (b, w2, t2) => Some (b, w2, t1 ++ t2)
        end
    end.

Notation "x <- c1 ;; c2" := (bind c1 (fun x => c2))
  (at level 61, c1 at next level, right associativity).
Notation "c1 ;; c2" := (bind c1 (fun _ => c2))
  (at level 61, right associativity).

(* mp->f *)
Definition rd {A : Type} (f : t_mousepad -> A) : M A :=
  fun w => Some (f (obj w), w, []).

(* mp->f = v *)
Definition upd (f : t_mousepad -> t_mousepad) : M unit :=
  fun w => Some (tt, mk_world (f (obj w)) (bindings w), []).

Definition emit (e : event) : M unit := fun w => Some (tt, w, [e]).

Definition trap {A : Type} (o : option A) : M A :=
  fun w => match o with Some a => Some (a, w, []) | None => None end.

Definition whenM (b : bool) (c : M unit) : M unit :=
  if b then c else ret tt.

(* sym->s_thing != NULL *)
Definition has_thing (sym : t_symbol) (b : list (t_symbol * Z)) : bool :=
  existsb (fun p => sym_eqb (fst p) sym) b.

Definition s_thing (sym : t_mousepad -> t_symbol) : M bool :=
  fun w => Some (has_thing (sym (obj w)) (bindings w), w, []).

Fixpoint unbind_first (s : t_symbol) (x : Z) (b : list (t_symbol * Z))
  : list (t_symbol * Z) :=
  match b with
  | [] => []
  | (s', x') :: b' =>
      if sym_eqb s' s && (x' =? x) then b'
      else (s', x') :: unbind_first s x b'
  end.

Definition pd_bind (s : t_symbol) : M unit :=
  fun w => Some (tt, mk_world (obj w) ((s, self (obj w)) :: bindings w),
                 [Pd_bind s]).

Definition pd_unbind (s : t_symbol) : M unit :=
  fun w => Some (tt, mk_world (obj w) (unbind_first s (self (obj w)) (bindings w)),
                 [Pd_unbind s]).

(* out[i] = a on the three atoms of mp->out *)
Definition out_set (o : t_atom * t_atom * t_atom) (i : Z) (a : t_atom)
  : t_atom * t_atom * t_atom :=
  match i with
  | 0 => (a, snd (fst o), snd o)
  | 1 => (fst (fst o), a, snd o)
  | 2 => (fst (fst o), snd (fst o), a)
  | _ => o
  end.

(* the argc atoms that a receiver of (argc, mp->out) reads *)
Definition out_take (argc : Z) (o : t_atom * t_atom * t_atom) : list t_atom :=
  match argc with
  | 1 => [fst (fst o)]
  | 2 => [fst (fst o); snd (fst o)]
  | Z.pos _ => [fst (fst o); snd (fst o); snd o]
  | _ => []
  end.

(* SETFLOAT(mp->out + i, f) and SETSYMBOL(mp->out + i, s) *)
Definition SETFLOAT (i : Z) (f : t_float) : M unit :=
  upd (fun mp => set_out (out_set (out mp) i (A_FLOAT f)) mp).

Definition SETSYMBOL (i : Z) (s : t_symbol) : M unit :=
  upd (fun mp => set_out (out_set (out mp) i (A_SYMBOL s)) mp).

(* outlet_anything(mp->obj.ob_outlet, s, argc, mp->out) *)
Definition outlet_anything (s : t_symbol) (argc : Z) : M unit :=
  o <- rd out ;; emit (Outlet_anything s (out_take argc o)).

(* typedmess(mp->dest->s_thing, s, argc, mp->out) *)
Definition typedmess (dest : t_mousepad -> t_symbol) (s : t_symbol) (argc : Z)
  : M unit :=
  d <- rd dest ;; o <- rd out ;;
  emit (Typedmess d s (out_take argc o)).

(* if(sendable && mp->sendname->s_thing) typedmess(mp->sendname->s_thing, ...) *)
Definition send_if_bound (sendable : bool) (s : t_symbol) (argc : Z) : M unit :=
  b <- s_thing sendname ;;
  whenM (sendable && b) (typedmess sendname s argc).

Definition sys_vgui (c : gui_cmd) : M unit := emit (Sys_vgui c).

(** ** Drawing calls for tk *)

Definition draw_rect (canv obj part : Z) (pix : list Z) (w isnew : Z) : M unit :=
  if negb (isnew =? 0) then
    sys_vgui (Tk_create_rectangle canv (aget 0 pix 0) (aget 0 pix 1)
                                  (aget 0 pix 2) (aget 0 pix 3) w obj part)
  else
    sys_vgui (Tk_coords canv obj part (aget 0 pix 0) (aget 0 pix 1)
                        (aget 0 pix 2) (aget 0 pix 3)).

Definition draw_outlinecolor (canv obj part color : Z) : M unit :=
  sys_vgui (Tk_itemconfigure_outline canv obj part color).

Definition draw_fillcolor (canv obj part color : Z) : M unit :=
  sys_vgui (Tk_itemconfigure_fill canv obj part color).

Definition draw_erase (canv obj part : Z) : M unit :=
  sys_vgui (Tk_delete canv obj part).

(** ** The mousepad functions *)

Section Mousepad.

Variable host : t_host.

(* ----------- pixel calculator *)

Definition mousepad_draw (isnew rects : Z) : M unit :=
  mp <- rd id ;;
  if (isnew =? 0) && negb (glist_isvisible host (glist mp)) then ret tt
  else
    let canv     := glist_getcanvas host (glist mp) in
    let zoom     := zoomfactor mp in
    let xpos     := text_xpix host (te_xpix mp) (glist mp) in
    let ypos     := text_ypix host (te_ypix mp) (glist mp) in
    let width    := pixw mp in
    let height   := pixh mp in
    let iowidth  := imul (IOWIDTH host) zoom in
    let ioheight := imul IOHEIGHT zoom in
    let rects :=
      if rects =? 0 then
        let rects := BASE in
        let rects := if sym_eqb (sendname mp) symEmpty
                     then Z.lor rects INLET else rects in
        if sym_eqb (receivename mp) symEmpty
        then Z.lor rects OUTLET else rects
      else rects in
    whenM (negb (Z.land rects BASE =? 0))
      (let base := [xpos; ypos; iadd xpos width; iadd ypos height] in
       draw_rect canv (self mp) BASE base zoom isnew) ;;
    whenM (negb (Z.land rects INLET =? 0))
      (let inlet := [xpos; ypos; iadd xpos iowidth; iadd ypos ioheight] in
       draw_rect canv (self mp) INLET inlet zoom isnew) ;;
    whenM (negb (Z.land rects OUTLET =? 0))
      (let outlet := [xpos; isub (iadd ypos height) ioheight;
                      iadd xpos iowidth; iadd ypos height] in
       draw_rect canv (self mp) OUTLET outlet zoom isnew) ;;
    if negb (isnew =? 0) then draw_fillcolor canv (self mp) BASE (intcolor mp)
    else emit (Canvas_fixlinesfor (glist mp)).

(* called by mousepad_send() and mousepad_receive() if send/receivable changes *)
Definition mousepad_change_io (change iolet : Z) : M unit :=
  mp <- rd id ;;
  if negb (glist_isvisible host (glist mp)) then ret tt
  else
    let canv := glist_getcanvas host (glist mp) in
    if change =? 1 then mousepad_draw 1 iolet
    else if change =? -1 then draw_erase canv (self mp) iolet
    else ret tt.

(* ----------- t_widgetbehaviour callback functions *)

Definition mousepad_vis (gl vis : Z) : M unit :=
  mp <- rd id ;;
  let canv := glist_getcanvas host gl in
  if negb (vis =? 0) then
    let isnew := 1 in
    mousepad_draw isnew 0
  else
    draw_erase canv (self mp) BASE ;;
    whenM (sym_eqb (sendname mp) symEmpty) (draw_erase canv (self mp) INLET) ;;
    whenM (sym_eqb (receivename mp) symEmpty) (draw_erase canv (self mp) OUTLET) ;;
    emit Sys_unqueuegui.

Definition mousepad_displace (gl dx dy : Z) : M unit :=
  let isnew := 0 in
  upd (fun mp => set_te_xpix (te_pix host (iadd (te_xpix mp) dx)) mp) ;;
  upd (fun mp => set_te_ypix (te_pix host (iadd (te_ypix mp) dy)) mp) ;;
  mousepad_draw isnew 0.

Definition mousepad_select (gl selected : Z) : M unit :=
  mp <- rd id ;;
  let outlinecolor := COLOR_NORMAL in
  let outlinecolor := if negb (selected =? 0) then COLOR_SELECTED
                      else outlinecolor in
  whenM (glist_isvisible host gl)
    (let canv := glist_getcanvas host gl in
     draw_outlinecolor canv (self mp) BASE outlinecolor).

Definition mousepad_delete (gl : Z) : M unit :=
  emit (Canvas_deletelinesfor gl).

(* the result is the four coordinates stored through xp1, yp1, xp2, yp2 *)
Definition mousepad_getrect (gl : Z) : M (Z * Z * Z * Z) :=
  mp <- rd id ;;
  let xp1 := text_xpix host (te_xpix mp) gl in
  let yp1 := text_ypix host (te_ypix mp) gl in
  let xp2 := iadd xp1 (pixw mp) in
  let yp2 := iadd yp1 (pixh mp) in
  ret (xp1, yp1, xp2, yp2).

(* --------- other callback functions *)

(* the two binbuf_addv calls, with formats "ssiisiisss" and ";" *)
Definition mousepad_save : M unit :=
  mp <- rd id ;;
  (* normalize position to zoom factor 1 *)
  xpos <- trap (idiv (te_xpix mp) (zoomfactor mp)) ;;
  ypos <- trap (idiv (te_ypix mp) (zoomfactor mp)) ;;
  emit (Binbuf_addv
          [A_SYMBOL (gensym "#X"); A_SYMBOL (gensym "obj");
           A_FLOAT (int2float xpos); A_FLOAT (int2float ypos);
           A_SYMBOL (atom_getsymbol (aget A_NULL (te_binbuf mp) 0));
           A_FLOAT (int2float (width mp)); A_FLOAT (int2float (height mp));
           A_SYMBOL (sendname_unexpanded mp);
           A_SYMBOL (receivename_unexpanded mp);
           A_SYMBOL (int2hexcolor (intcolor mp))]) ;;
  emit (Binbuf_addv [A_SEMI]).

Definition mousepad_motion (dx dy : t_float) : M unit :=
  let deltax := float2int dx in
  let deltay := float2int dy in
  if Z.lor deltax deltay =? 0 then ret tt
  else
    sn <- rd sendname ;;
    let sendable := negb (sym_eqb sn symEmpty) in
    upd (fun mp => set_xval (iadd (xval mp) deltax) mp) ;;
    upd (fun mp => set_yval (iadd (yval mp) deltay) mp) ;;
    (* xy relative to gui *)
    mp <- rd id ;;
    x <- trap (idiv (xval mp) (zoomfactor mp)) ;;
    SETFLOAT 0 (int2float x) ;;
    y <- trap (idiv (yval mp) (zoomfactor mp)) ;;
    SETFLOAT 1 (int2float y) ;;
    outlet_anything symDrag 2 ;;
    send_if_bound sendable symDrag 2 ;;
    (* xy deltas *)
    x <- trap (idiv deltax (zoomfactor mp)) ;;
    SETFLOAT 0 (int2float x) ;;
    y <- trap (idiv deltay (zoomfactor mp)) ;;
    SETFLOAT 1 (int2float y) ;;
    outlet_anything symDeltas 2 ;;
    send_if_bound sendable symDeltas 2.

(* called when the mouse hovers over the canvas or when a mouse click on the
   gui area happens; [button] is the argument buttonstate *)
Definition mousepad_click (gl xpix ypix shift alt dbl button : Z) : M Z :=
  mp <- rd id ;;
  let sendable := negb (sym_eqb (sendname mp) symEmpty) in
  let xpos := text_xpix host (te_xpix mp) gl in
  let ypos := text_ypix host (te_ypix mp) gl in
  whenM (negb (button =? buttonstate mp))
    (SETFLOAT 0 (int2float button) ;;
     SETFLOAT 1 (int2float shift) ;;
     SETFLOAT 2 (int2float (if negb (alt =? 0) then 1 else 0)) ;;
     outlet_anything symButton 3 ;;
     send_if_bound sendable symButton 3 ;;
     upd (set_buttonstate button)) ;;
  upd (set_xval (isub xpix xpos)) ;;
  upd (set_yval (isub ypix ypos)) ;;
  mp <- rd id ;;
  x <- trap (idiv (xval mp) (zoomfactor mp)) ;;
  SETFLOAT 0 (int2float x) ;;
  y <- trap (idiv (yval mp) (zoomfactor mp)) ;;
  SETFLOAT 1 (int2float y) ;;
  (* if mouse click, pass motion function pointer and send drag coords *)
  (if negb (button =? 0) then
     emit (Glist_grab (glist mp) (int2float xpix) (int2float ypix)) ;;
     outlet_anything symDrag 2 ;;
     send_if_bound sendable symDrag 2
   (* if mouse up, send hover coords *)
   else
     outlet_anything symHover 2 ;;
     send_if_bound sendable symHover 2) ;;
  ret 1.

(* [zoom] is the argument zoomfactor *)
Definition mousepad_zoom (zoom : t_float) : M unit :=
  upd (fun mp => set_pixw (imul (width mp) (cast_int zoom)) mp) ;;
  upd (fun mp => set_pixh (imul (height mp) (cast_int zoom)) mp) ;;
  upd (set_zoomfactor (cast_int zoom)) ;;
  sn <- rd sendname ;;
  let sendable := negb (sym_eqb sn symEmpty) in
  (* push message to listeners as this can be considered an event *)
  SETFLOAT 0 zoom ;;
  outlet_anything symZoom 1 ;;
  send_if_bound sendable symZoom 1 ;;
  b <- s_thing sendname_fixed ;;
  whenM b (typedmess sendname_fixed symZoom 1).

(* --------- settings *)

(* parameters for which user and properties patch can request values *)
Definition mousepad_get (selector : t_symbol) : M unit :=
  mp <- rd id ;;
  let sendable := negb (sym_eqb (sendname mp) symEmpty) in
  argc <-
    (if sym_eqb selector symSize then
       SETFLOAT 0 (int2float (width mp)) ;;
       SETFLOAT 1 (int2float (height mp)) ;;
       ret 2
     else if sym_eqb selector symNames then
       SETSYMBOL 0 (sendname_unexpanded mp) ;;
       SETSYMBOL 1 (receivename_unexpanded mp) ;;
       ret 2
     else if sym_eqb selector symColor then
       SETFLOAT 0 (int2float (intcolor mp)) ;;
       ret 1
     else if sym_eqb selector symPos then
       (* nominal object position on canvas *)
       xpos <- trap (idiv (text_xpix host (te_xpix mp) (glist mp))
                          (zoomfactor mp)) ;;
       ypos <- trap (idiv (text_ypix host (te_ypix mp) (glist mp))
                          (zoomfactor mp)) ;;
       SETFLOAT 0 (int2float xpos) ;;
       SETFLOAT 1 (int2float ypos) ;;
       ret 2
     else if sym_eqb selector symZoom then
       SETFLOAT 0 (int2float (zoomfactor mp)) ;;
       ret 1
     else ret 0) ;;
  whenM (negb (argc =? 0))
    (outlet_anything selector argc ;;
     send_if_bound sendable selector argc ;;
     b <- s_thing sendname_fixed ;;
     whenM b (typedmess sendname_fixed selector argc)).

Definition mousepad_status : M unit :=
  mp <- rd id ;;
  let color := int2hexcolor (intcolor mp) in
  emit (Post "mousepad width: %d" (Pint (width mp))) ;;
  emit (Post "mousepad height: %d" (Pint (height mp))) ;;
  emit (Post "mousepad send name: %s" (Pstr (sendname_unexpanded mp))) ;;
  emit (Post "mousepad receive name: %s" (Pstr (receivename_unexpanded mp))) ;;
  emit (Post "mousepad color is %s" (Pstr color)) ;;
  emit (Post "object ID is %s" (Pstr (objID mp))).

(* functionally equivalent to mousepad_displace but different arguments *)
Definition mousepad_delta (dx dy : t_float) : M unit :=
  let isnew := 0 in
  upd (fun mp => set_te_xpix
         (te_pix host (iadd (te_xpix mp) (imul (cast_int dx) (zoomfactor mp))))
         mp) ;;
  upd (fun mp => set_te_ypix
         (te_pix host (iadd (te_ypix mp) (imul (cast_int dy) (zoomfactor mp))))
         mp) ;;
  mousepad_draw isnew 0.

Definition mousepad_pos (xpos ypos : t_float) : M unit :=
  let isnew := 0 in
  upd (fun mp => set_te_xpix
         (te_pix host (imul (cast_int xpos) (zoomfactor mp))) mp) ;;
  upd (fun mp => set_te_ypix
         (te_pix host (imul (cast_int ypos) (zoomfactor mp))) mp) ;;
  mousepad_draw isnew 0.

Definition mousepad_color (s : t_symbol) (argv : list t_atom) : M unit :=
  let argc := argc_of argv in
  if argc =? 0 then ret tt
  else
    let intcolor := DEFCOLOR in
    let intcolor :=
      if IS_A_FLOAT argv 0 then
        let intcolor := cast_int (atom_getfloatarg 0 1 argv) in
        Z.land intcolor 0xFFFFFF
      else if IS_A_SYMBOL argv 0 then
        let hexcolor := atom_getsymbolarg 0 1 argv in
        if char_at hexcolor 0 =? 35 (* '#' *) then hexcolor2int hexcolor
        else intcolor
      else intcolor in
    mp <- rd id ;;
    whenM (glist_isvisible host (glist mp))
      (let canv := glist_getcanvas host (glist mp) in
       draw_fillcolor canv (self mp) BASE intcolor) ;;
    upd (set_intcolor intcolor).

(* Nominal width and height. If only one argument is given, then
   height = width. *)
Definition mousepad_size (argv : list t_atom) : M unit :=
  let argc := argc_of argv in
  let width := DEFSIZE in
  let height := DEFSIZE in
  let '(width, height) :=
    if 1 <=? argc then
      let width := if IS_A_FLOAT argv 0 then cast_int (a_w_float argv 0)
                   else width in
      let height := if argc =? 1 then width
                    else if IS_A_FLOAT argv 1 then cast_int (a_w_float argv 1)
                    else height in
      (width, height)
    else (width, height) in
  let width := if width <? 1 then 1 else width in
  let height := if height <? 1 then 1 else height in
  upd (set_width width) ;;
  upd (set_height height) ;;
  (* width and height expressed in screen pixels *)
  upd (fun mp => set_pixw (imul width (zoomfactor mp)) mp) ;;
  upd (fun mp => set_pixh (imul height (zoomfactor mp)) mp).

Definition mousepad_resize (s : t_symbol) (argv : list t_atom) : M unit :=
  let isnew := 0 in
  mousepad_size argv ;;
  mousepad_draw isnew 0.

Definition mousepad_dirty : M unit :=
  gl <- rd glist ;; emit (Canvas_dirty gl 1).

(* --------- send and receive names *)

(* [name] is the argument sendname *)
Definition mousepad_send (name : t_symbol) : M unit :=
  mp <- rd id ;;
  let was_sendable := if sym_eqb (sendname mp) symEmpty then 0 else 1 in
  let is_sendable := 0 in
  let gl := glist mp in
  let name := if sym_eqb name s_ then symEmpty else name in
  let is_sendable := if sym_eqb name symEmpty then is_sendable else 1 in
  upd (set_sendname_unexpanded name) ;;
  upd (set_sendname (canvas_realizedollar host gl name)) ;;
  let change := isub was_sendable is_sendable in
  (* draw or erase inlet *)
  whenM (negb (change =? 0)) (mousepad_change_io change INLET).

(* [name] is the argument receivename *)
Definition mousepad_receive (name : t_symbol) : M unit :=
  mp <- rd id ;;
  let was_receivable := if sym_eqb (receivename mp) symEmpty then 0 else 1 in
  let is_receivable := 0 in
  let gl := glist mp in
  (* if previously receivable, unbind old receive name *)
  whenM (negb (was_receivable =? 0)) (pd_unbind (receivename mp)) ;;
  (* new name, bind if not empty *)
  let name := if sym_eqb name s_ then symEmpty else name in
  upd (set_receivename_unexpanded name) ;;
  let name := canvas_realizedollar host gl name in
  let is_receivable := if sym_eqb name symEmpty then is_receivable else 1 in
  whenM (negb (is_receivable =? 0)) (pd_bind name) ;;
  upd (set_receivename name) ;;
  let change := isub was_receivable is_receivable in
  (* draw or erase outlet *)
  whenM (negb (change =? 0)) (mousepad_change_io change OUTLET).

(* -------- creation, init, deletion, setup *)

Definition mousepad_init_unexpanded : M unit :=
  mp <- rd id ;;
  let binbufvec := te_binbuf mp in
  (* if at least 5 atoms in binbuf, assume the names are there *)
  whenM (4 <? argc_of (te_binbuf mp))
    (whenM (sym_eqb (sendname_unexpanded mp) symEmpty)
       (let send := atom_string host (aget A_NULL binbufvec 3) 80 in
        upd (set_sendname_unexpanded (gensym send))) ;;
     whenM (sym_eqb (receivename_unexpanded mp) symEmpty)
       (let receive := atom_string host (aget A_NULL binbufvec 4) 80 in
        upd (set_receivename_unexpanded (gensym receive)))).

(* set up fixed send & receive channels for communication with property dialog *)
Definition mousepad_fixed_sendreceive : M unit :=
  mp <- rd id ;;
  let objID := sprintf_lX (self mp) in
  let sendname := ("from-mousepad-" ++ sprintf_lX (self mp))%string in
  let receivename := ("to-mousepad-" ++ sprintf_lX (self mp))%string in
  upd (set_objID (gensym objID)) ;;
  upd (set_sendname_fixed (gensym sendname)) ;;
  upd (set_receivename_fixed (gensym receivename)) ;;
  fixed <- rd receivename_fixed ;;
  pd_bind fixed.

(* arguments are optional but their order is fixed:
   [width height send receive color]; [addr] is the address pd_new returns
   and [b] the receivers bound at that moment *)
Definition mousepad_new (addr : Z) (s : t_symbol) (argv : list t_atom)
           (b : list (t_symbol * Z)) : option (unit * world * list event) :=
  let argc := argc_of argv in
  (upd (set_glist (canvas_getcurrent host)) ;;
   emit (Outlet_new (gensym "list")) ;;
   upd (set_intcolor DEFCOLOR) ;;
   upd (set_zoomfactor DEFZOOM) ;;
   upd (set_xval 0) ;;
   upd (set_yval 0) ;;
   upd (set_buttonstate 0) ;;
   upd (set_sendname symEmpty) ;;
   upd (set_receivename symEmpty) ;;
   (* process instantiation arguments *)
   mousepad_size argv ;;
   mousepad_send (atom_getsymbolarg 2 argc argv) ;;
   mousepad_receive (atom_getsymbolarg 3 argc argv) ;;
   whenM (5 <=? argc) (mousepad_color s (firstn 1 (skipn 4 argv))) ;;
   (* overwrite unexpanded names with defaults, we really can't know them yet *)
   upd (set_sendname_unexpanded symEmpty) ;;
   upd (set_receivename_unexpanded symEmpty) ;;
   (* setup callback method to initialize unexpanded symbols *)
   emit (Clock_delay 0) ;;
   mousepad_fixed_sendreceive)
    (mk_world (pd_new addr) b).

Definition mousepad_free : M unit :=
  mp <- rd id ;;
  pd_unbind (receivename_fixed mp) ;;
  whenM (negb (sym_eqb (receivename mp) symEmpty))
    (pd_unbind (receivename mp)).

Definition mousepad_properties : M unit :=
  let dir := c_externdir host in
  let file := gensym "mousepad-properties.pd" in
  let dsize := Z.of_nat (String.length dir) in
  let fsize := Z.of_nat (String.length file) in
  if isub (MAXPDSTRING host) 4 <? iadd dsize fsize then ret tt
  else
    (* assemble full path *)
    let path := dir in
    let path := if negb (char_at dir (dsize - 1) =? 47 (* '/' *))
                then (path ++ "/")%string else path in
    let path := (path ++ file)%string in
    let fd := sys_open host path in
    if fd <? 0 then
      emit (Post "could not find mousepad-properties.pd" Pnone)
    else
      emit (Sys_close fd) ;;
      (* instantiate mousepad-properties.pd and pass object ID as argument *)
      oid <- rd objID ;;
      emit (Canvas_setargs [A_SYMBOL oid]) ;;
      emit (Glob_evalfile file dir) ;;
      emit (Canvas_setargs []).

(** ** The calls the host makes on a live object

    The methods registered by mousepad_setup, the widget behaviour, the save
    and properties functions and the clock callback. *)

Inductive call : Type :=
| Motion (dx dy : t_float)
| Size (s : t_symbol) (argv : list t_atom)
| Color (s : t_symbol) (argv : list t_atom)
| Delta (dx dy : t_float)
| Pos (xpos ypos : t_float)
| Send (name : t_symbol)
| Receive (name : t_symbol)
| Status
| Get (selector : t_symbol)
| Dirty
| Zoom (zoom : t_float)
| Getrect (gl : Z)
| Displace (gl dx dy : Z)
| Select (gl selected : Z)
| Delete (gl : Z)
| Vis (gl vis : Z)
| Click (gl xpix ypix shift alt dbl button : Z)
| Save
| Properties
| Init_unexpanded.

Definition run (c : call) : M unit :=
  match c with
  | Motion dx dy => mousepad_motion dx dy
  | Size s argv => mousepad_resize s argv
  | Color s argv => mousepad_color s argv
  | Delta dx dy => mousepad_delta dx dy
  | Pos xpos ypos => mousepad_pos xpos ypos
  | Send name => mousepad_send name
  | Receive name => mousepad_receive name
  | Status => mousepad_status
  | Get selector => mousepad_get selector
  | Dirty => mousepad_dirty
  | Zoom zoom => mousepad_zoom zoom
  | Getrect gl => _ <- mousepad_getrect gl ;; ret tt
  | Displace gl dx dy => mousepad_displace gl dx dy
  | Select gl selected => mousepad_select gl selected
  | Delete gl => mousepad_delete gl
  | Vis gl vis => mousepad_vis gl vis
  | Click gl xpix ypix shift alt dbl button =>
      _ <- mousepad_click gl xpix ypix shift alt dbl button ;; ret tt
  | Save => mousepad_save
  | Properties => mousepad_properties
  | Init_unexpanded => mousepad_init_unexpanded
  end.

(* the bindings of the object at address [x] *)
Definition own (x : Z) (b : list (t_symbol * Z)) : list (t_symbol * Z) :=
  filter (fun p => snd p =? x) b.

(* between two calls the host may move the object, set the text of its box
   and let other objects bind and unbind; the bindings of this object stay *)
Inductive host_step : world -> world -> Prop :=
| host_moves : forall w xpix ypix,
    host_step w (mk_world (set_te_ypix ypix (set_te_xpix xpix (obj w)))
                          (bindings w))
| host_sets_binbuf : forall w b,
    host_step w (mk_world (set_te_binbuf b (obj w)) (bindings w))
| host_binds_others : forall w b,
    own (self (obj w)) b = own (self (obj w)) (bindings w) ->
    host_step w (mk_world (obj w) b).

End Mousepad.

(* the states of an object between its construction and its deletion; the
   host may answer differently from one call to the next *)
Inductive reachable : world -> Prop :=
| reach_new : forall host addr s argv b w t,
    own addr b = [] ->
    mousepad_new host addr s argv b = Some (tt, w, t) ->
    reachable w
| reach_call : forall host w c w' t,
    reachable w -> run host c w = Some (tt, w', t) -> reachable w'
| reach_host : forall w w',
    reachable w -> host_step w w' -> reachable w'.

(** ** A host to run the code on

    A visible top-level canvas at address 1 whose window is canvas 2, no
    dollar arguments, te_xpix and te_ypix declared short, and a properties
    patch that is not installed. *)

Definition demo_host : t_host :=
  mk_host 7 1000
          (fun z => (z + 2 ^ 15) mod 2 ^ 16 - 2 ^ 15)
          (fun _ => true)
          (fun _ => 2)
          (fun te _ => te)
          (fun te _ => te)
          (fun _ s => s)
          1
          (fun a _ => match a with A_SYMBOL s => s | _ => EmptyString end)
          "/usr/lib/pd/extra/mousepad"
          (fun _ => -1).

(** ** Vocabulary of the statements *)

(* the character hexcolor[i] that int2hexcolor writes for a nibble *)
Definition hexdigit (d : Z) : ascii :=
  char_of_int (if d <? 10 then d + 48 else d + 55).

(* the value hexcolor2int stores in intbuf[i] for a character *)
Definition hexval (a : ascii) : Z :=
  let h := Z.of_N (N_of_ascii a) in
  if (48 <=? h) && (h <=? 57) then h - 48
  else if (65 <=? h) && (h <=? 70) then h - 55
  else if (97 <=? h) && (h <=? 102) then h - 87
  else 0.

Definition is_hexdigit (a : ascii) : bool :=
  let h := Z.of_N (N_of_ascii a) in
  ((48 <=? h) && (h <=? 57)) || ((65 <=? h) && (h <=? 70))
  || ((97 <=? h) && (h <=? 102)).

(* nibble j of c, nibble 0 being the least significant *)
Definition nibble (c j : Z) : Z := (c / 2 ^ (4 * j)) mod 16.

(* the integer with the given six nibbles, most significant first *)
Definition pack6 (v0 v1 v2 v3 v4 v5 : Z) : Z :=
  ((((v0 * 16 + v1) * 16 + v2) * 16 + v3) * 16 + v4) * 16 + v5.

(* an intbuf of hexcolor2int: six values, each a nibble *)
Definition digits6 (l : list Z) : Prop :=
  List.length l = 6%nat /\ Forall (fun v => 0 <= v < 16) l.

(* the drawing command that draw_rect issues for a rectangle *)
Definition rect_cmd (canv obj part : Z) (pix : Z * Z * Z * Z) (w isnew : Z)
  : event :=
  let '(x1, y1, x2, y2) := pix in
  if isnew =? 0 then Sys_vgui (Tk_coords canv obj part x1 y1 x2 y2)
  else Sys_vgui (Tk_create_rectangle canv x1 y1 x2 y2 w obj part).

(* a dimension given by an argument of 'size': clamped if it is a float,
   the default if it is missing or not a float *)
Definition size_dim (a : option t_atom) : Z :=
  match a with
  | Some (A_FLOAT f) => Z.max 1 (cast_int f)
  | _ => DEFSIZE
  end.

Definition size_width (argv : list t_atom) : Z := size_dim (nth_error argv 0).

Definition size_height (argv : list t_atom) : Z :=
  match argv with
  | [_] => size_width argv
  | _ => size_dim (nth_error argv 1)
  end.

(* the colour that the first argument of 'color' stands for *)
Definition color_arg (a : t_atom) : Z :=
  match a with
  | A_FLOAT f => cast_int f mod 2 ^ 24
  | A_SYMBOL (String c _ as s) =>
      if Ascii.eqb c "#" then hexcolor2int s else DEFCOLOR
  | _ => DEFCOLOR
  end.

(* a send or receive name as given: the empty symbol stands for "empty" *)
Definition name_arg (s : t_symbol) : t_symbol :=
  if sym_eqb s s_ then symEmpty else s.

Definition is_tk (e : event) : bool :=
  match e with Sys_vgui _ => true | _ => false end.




(* how often, and whether, the object at x is bound to s *)
Definition bound_count (s : t_symbol) (x : Z) (b : list (t_symbol * Z)) : nat :=
  List.length (filter (fun p => sym_eqb (fst p) s && (snd p =? x)) b).

Definition is_bound (s : t_symbol) (x : Z) (b : list (t_symbol * Z)) : bool :=
  existsb (fun p => sym_eqb (fst p) s && (snd p =? x)) b.

Definition b2n (b : bool) : nat := if b then 1%nat else 0%nat.

(* the bindings after mousepad_receive *)
Definition rebound (x : Z) (old new : t_symbol) (b : list (t_symbol * Z))
  : list (t_symbol * Z) :=
  (if sym_eqb new symEmpty then [] else [(new, x)])
    ++ (if sym_eqb old symEmpty then b else unbind_first old x b).

(* the bindings after mousepad_free *)
Definition unbound (mp : t_mousepad) (b : list (t_symbol * Z))
  : list (t_symbol * Z) :=
  let b := unbind_first (receivename_fixed mp) (self mp) b in
  if sym_eqb (receivename mp) symEmpty then b
  else unbind_first (receivename mp) (self mp) b.

(* the object that mousepad_new builds *)
Definition new_object (host : t_host) (addr : Z) (argv : list t_atom)
  : t_mousepad :=
  let gl := canvas_getcurrent host in
  let argc := argc_of argv in
  mk_mousepad addr 0 0 [] gl
    (size_width argv) (size_height argv) 0 0
    (imul (size_width argv) DEFZOOM) (imul (size_height argv) DEFZOOM)
    DEFZOOM 0
    (match nth_error argv 4 with Some a => color_arg a | None => DEFCOLOR end)
    (canvas_realizedollar host gl (name_arg (atom_getsymbolarg 2 argc argv)))
    (canvas_realizedollar host gl (name_arg (atom_getsymbolarg 3 argc argv)))
    symEmpty symEmpty
    (gensym (sprintf_lX addr))
    (gensym ("from-mousepad-" ++ sprintf_lX addr)%string)
    (gensym ("to-mousepad-" ++ sprintf_lX addr)%string)
    (A_NULL, A_NULL, A_NULL).

(* the five creation arguments that mousepad_save writes *)
Definition saved_args (mp : t_mousepad) : list t_atom :=
  [A_FLOAT (int2float (width mp)); A_FLOAT (int2float (height mp));
   A_SYMBOL (sendname_unexpanded mp); A_SYMBOL (receivename_unexpanded mp);
   A_SYMBOL (int2hexcolor (intcolor mp))].

(* the object sits on the current canvas and its expanded names are the
   expansions of its unexpanded names *)
Definition names_expand (host : t_host) (mp : t_mousepad) : Prop :=
  glist mp = canvas_getcurrent host
  /\ sendname mp =
     canvas_realizedollar host (glist mp) (name_arg (sendname_unexpanded mp))
  /\ receivename mp =
     canvas_realizedollar host (glist mp) (name_arg (receivename_unexpanded mp)).

(* what holds of every live object: the size and colour ranges, the pixel
   size, the fixed receive name, and exactly one binding for the fixed name
   plus one for a user receive name other than "empty" *)
Definition live (w : world) : Prop :=
  let mp := obj w in
  1 <= width mp <= INT_MAX /\ 1 <= height mp <= INT_MAX
  /\ pixw mp = imul (width mp) (zoomfactor mp)
  /\ pixh mp = imul (height mp) (zoomfactor mp)
  /\ 0 <= intcolor mp <= 0xFFFFFF
  /\ receivename_fixed mp = ("to-mousepad-" ++ sprintf_lX (self mp))%string
  /\ forall s,
      bound_count s (self mp) (bindings w) =
      (b2n (sym_eqb s (receivename_fixed mp))
       + b2n (sym_eqb s (receivename mp)
              && negb (sym_eqb (receivename mp) symEmpty)))%nat.

(* the part of the state that [live] speaks about *)
Definition kept (w : world) :=
  (width (obj w), height (obj w), pixw (obj w), pixh (obj w),
   zoomfactor (obj w), intcolor (obj w), self (obj w), receivename (obj w),
   receivename_fixed (obj w), bindings w).

(* the computation [c] leaves the part [p] of the state as it is *)
Definition keeps {X A : Type} (p : world -> X) (c : M A) : Prop :=
  forall w a w' t, c w = Some (a, w', t) -> p w' = p w.

(** ** Two objects to run the code on *)

(* a pad created as [mousepad 100 50 pad-out pad-in #abc] at address 16 on
   the canvas of [demo_host], moved to (10, 20), after its clock callback,
   with one other object (at address 99) bound to pad-out *)
Definition demo_box : list t_atom :=
  [A_SYMBOL "mousepad"; A_FLOAT (100 # 1); A_FLOAT (50 # 1);
   A_SYMBOL "pad-out"; A_SYMBOL "pad-in"; A_SYMBOL "#abc"].

Definition demo_pad : t_mousepad :=
  mk_mousepad 16 10 20 demo_box 1 100 50 0 0 100 50 1 0 0xAABBCC
              "pad-out" "pad-in" "pad-out" "pad-in"
              "0X10" "from-mousepad-0X10" "to-mousepad-0X10"
              (A_NULL, A_NULL, A_NULL).

Definition demo_world : world :=
  mk_world demo_pad
           [("to-mousepad-0X10", 16); ("pad-in", 16); ("pad-out", 99)].

(* a pad created as [mousepad 64 64 foo] at address 16, after its clock
   callback *)
Definition send_only_box : list t_atom :=
  [A_SYMBOL "mousepad"; A_FLOAT (64 # 1); A_FLOAT (64 # 1); A_SYMBOL "foo"].

Definition send_only_pad : t_mousepad :=
  mk_mousepad 16 0 0 send_only_box 1 64 64 0 0 64 64 1 0 0xDDDDDD
              "foo" "empty" "empty" "empty"
              "0X10" "from-mousepad-0X10" "to-mousepad-0X10"
              (A_NULL, A_NULL, A_NULL).

Definition send_only_world : world :=
  mk_world send_only_pad [("to-mousepad-0X10", 16)].

(* the pixel coordinates of a rectangle of the object: the inlet, the outlet
   or, for any other [part], the base *)
Definition rect_pix (host : t_host) (mp : t_mousepad) (part : Z)
  : Z * Z * Z * Z :=
  let x := text_xpix host (te_xpix mp) (glist mp) in
  let y := text_ypix host (te_ypix mp) (glist mp) in
  let z := zoomfactor mp in
  if part =? INLET
  then (x, y, iadd x (imul (IOWIDTH host) z), iadd y (imul IOHEIGHT z))
  else if part =? OUTLET
  then (x, isub (iadd y (pixh mp)) (imul IOHEIGHT z),
        iadd x (imul (IOWIDTH host) z), iadd y (pixh mp))
  else (x, y, iadd x (pixw mp), iadd y (pixh mp)).


(* what a change of a name does to the inlet or outlet [part] of the object
   if its glist is visible: the rectangle is created, and the fill colour
   sent again, when the name becomes "empty"; it is deleted when the name
   stops being "empty" *)
Definition iolet_change (host : t_host) (mp : t_mousepad) (part : Z)
           (was_empty is_empty : bool) : list event :=
  let canv := glist_getcanvas host (glist mp) in
  if negb (glist_isvisible host (glist mp)) then []
  else if negb was_empty && is_empty
  then [rect_cmd canv (self mp) part (rect_pix host mp part) (zoomfactor mp) 1;
        Sys_vgui (Tk_itemconfigure_fill canv (self mp) BASE (intcolor mp))]
  else if was_empty && negb is_empty
  then [Sys_vgui (Tk_delete canv (self mp) part)]
  else [].

(** ** Vocabulary of the further properties *)

(* the number that a string of hex digits denotes, after [acc] *)
Fixpoint hexnum (s : string) (acc : Z) : Z :=
  match s with
  | EmptyString => acc
  | String c s' => hexnum s' (acc * 16 + hexval c)
  end.

(* the number that sprintf_lX printed *)
Definition sscanf_lX (s : string) : Z :=
  match s with
  | String "0" (String "X" digits) => hexnum digits 0
  | _ => 0
  end.

(* the messages that carry one answer: to the outlet, to the send name if
   it is not "empty" and bound, and to the fixed send name if it is bound *)
Definition answer (w : world) (sel : t_symbol) (argv : list t_atom)
  : list event :=
  let mp := obj w in
  [Outlet_anything sel argv]
    ++ (if negb (sym_eqb (sendname mp) symEmpty)
           && has_thing (sendname mp) (bindings w)
        then [Typedmess (sendname mp) sel argv] else [])
    ++ (if has_thing (sendname_fixed mp) (bindings w)
        then [Typedmess (sendname_fixed mp) sel argv] else []).

(* what a call issued, its position fields and its size fields afterwards *)
Definition trace_of {A : Type} (r : option (A * world * list event))
  : option (list event) :=
  option_map snd r.

Definition xy_after {A : Type} (r : option (A * world * list event))
  : option (Z * Z) :=
  option_map (fun r => (xval (obj (snd (fst r))), yval (obj (snd (fst r))))) r.

Definition geometry_after {A : Type} (r : option (A * world * list event))
  : option (Z * Z * Z * Z * Z) :=
  option_map (fun r => let mp := obj (snd (fst r)) in
                       (width mp, height mp, pixw mp, pixh mp, zoomfactor mp))
             r.

Definition fixed_names_after {A : Type} (r : option (A * world * list event))
  : option (t_symbol * t_symbol * t_symbol) :=
  option_map (fun r => let mp := obj (snd (fst r)) in
                       (objID mp, sendname_fixed mp, receivename_fixed mp))
             r.

Definition is_button (e : event) : bool :=
  match e with
  | Outlet_anything s _ | Typedmess _ s _ => sym_eqb s symButton
  | _ => false
  end.

(* the rectangles that mousepad_draw and mousepad_vis take to be on the
   canvas of a visible object, as a set of BASE, INLET and OUTLET *)
Definition shown_rects (mp : t_mousepad) : Z :=
  Z.lor (Z.lor BASE (if sym_eqb (sendname mp) symEmpty then INLET else 0))
        (if sym_eqb (receivename mp) symEmpty then OUTLET else 0).

(* the rectangles on the canvas after the drawing commands of a trace:
   'create rectangle' adds one, 'delete' removes one *)
Fixpoint canvas_after (t : list event) (rects : Z) : Z :=
  match t with
  | [] => rects
  | Sys_vgui (Tk_create_rectangle _ _ _ _ _ _ _ part) :: t' =>
      canvas_after t' (Z.lor rects part)
  | Sys_vgui (Tk_delete _ _ part) :: t' =>
      canvas_after t' (Z.ldiff rects part)
  | _ :: t' => canvas_after t' rects
  end.

Definition is_item_change (e : event) : bool :=
  match e with
  | Sys_vgui (Tk_create_rectangle _ _ _ _ _ _ _ _) => true
  | Sys_vgui (Tk_delete _ _ _) => true
  | _ => false
  end.

(* every event that the computation [c] issues satisfies [ok] *)
Definition emits_only {A : Type} (ok : event -> bool) (c : M A) : Prop :=
  forall w a w' t, c w = Some (a, w', t) -> forallb ok t = true.

(* [demo_host] with no glist visible *)
Definition hidden_host : t_host :=
  mk_host (IOWIDTH demo_host) (MAXPDSTRING demo_host) (te_pix demo_host)
          (fun _ => false)
          (glist_getcanvas demo_host) (text_xpix demo_host)
          (text_ypix demo_host) (canvas_realizedollar demo_host)
          (canvas_getcurrent demo_host) (atom_string demo_host)
          (c_externdir demo_host) (sys_open demo_host).

Definition object_after {A : Type} (r : option (A * world * list event))
  : option t_mousepad :=
  option_map (fun r => obj (snd (fst r))) r.

(** ** Evaluating and framing callbacks *)

Lemma idiv_pos a b : 0 < b -> idiv a b = Some (Z.quot a b).
Proof.
  intros Hb. unfold idiv.
  replace (b =? 0) with false by (symmetry; apply Z.eqb_neq; lia).
  replace (b =? -1) with false by (symmetry; apply Z.eqb_neq; lia).
  rewrite andb_false_r. reflexivity.
Qed.

Lemma sym_eqb_refl s : sym_eqb s s = true.
Proof. apply String.eqb_refl. Qed.

Lemma sym_eqb_eq a b : sym_eqb a b = true <-> a = b.
Proof. apply String.eqb_eq. Qed.

(* run the monad and the field accesses, leave the arithmetic folded *)
Ltac msimpl :=
  cbv beta iota zeta delta
      [bind ret rd upd emit trap whenM s_thing pd_bind pd_unbind
       SETFLOAT SETSYMBOL outlet_anything typedmess send_if_bound sys_vgui
       draw_rect draw_outlinecolor draw_fillcolor draw_erase
       mousepad_draw mousepad_change_io
       obj bindings out_set out_take id fst snd app negb andb orb
       self te_xpix te_ypix te_binbuf glist width height xval yval pixw pixh
       zoomfactor buttonstate intcolor sendname receivename
       sendname_unexpanded receivename_unexpanded objID sendname_fixed
       receivename_fixed out
       set_te_xpix set_te_ypix set_te_binbuf set_glist set_width set_height
       set_xval set_yval set_pixw set_pixh set_zoomfactor set_buttonstate
       set_intcolor set_sendname set_receivename set_sendname_unexpanded
       set_receivename_unexpanded set_objID set_sendname_fixed
       set_receivename_fixed set_out].

(* name the fields of an object *)
Ltac destruct_mp mp :=
  destruct mp as [f_self f_tex f_tey f_bb f_gl f_w f_h f_xv f_yv f_pw f_ph
                  f_zf f_bs f_ic f_sn f_rn f_snu f_rnu f_id f_sf f_rf f_out].

(* use the conditions already decided *)
Ltac rew_bool :=
  repeat match goal with
         | H : ?c = ?v |- context [?c] =>
             lazymatch c with
             | true => fail
             | false => fail
             | _ => lazymatch v with
                    | true => rewrite H
                    | false => rewrite H
                    end
             end
         end.

(* decide the innermost condition that blocks the evaluation of [b]: by
   computation when it is closed, by cases otherwise *)
Ltac split_cond b :=
  lazymatch b with
  | context [if ?c then _ else _] => split_cond c
  | _ => let v := eval vm_compute in b in
         lazymatch v with
         | true => change b with true
         | false => change b with false
         | _ => destruct b eqn:?
         end
  end.

(* evaluate a callback on a symbolic state, case by case *)
Ltac mstep :=
  first [ progress msimpl | progress rew_bool
        | rewrite idiv_pos by assumption
        | rewrite sym_eqb_refl ].

Ltac mrun :=
  repeat mstep;
  repeat (match goal with
          | |- context [(if ?b then _ else _) _] =>
              match type of b with bool => split_cond b end
          end; repeat mstep).

Section Keeps.
Context {X : Type} (p : world -> X).

Lemma keeps_ret {A} (a : A) : keeps p (ret a).
Proof. intros w a' w' t H. inversion H. reflexivity. Qed.

Lemma keeps_rd {A} (f : t_mousepad -> A) : keeps p (rd f).
Proof. intros w a' w' t H. inversion H. reflexivity. Qed.

Lemma keeps_emit e : keeps p (emit e).
Proof. intros w a' w' t H. inversion H. reflexivity. Qed.

Lemma keeps_trap {A} (o : option A) : keeps p (trap o).
Proof. intros w a' w' t H. unfold trap in H. destruct o; inversion H. reflexivity. Qed.

Lemma keeps_s_thing f : keeps p (s_thing f).
Proof. intros w a' w' t H. inversion H. reflexivity. Qed.

Lemma keeps_bind {A B} (c : M A) (k : A -> M B) :
  keeps p c -> (forall a, keeps p (k a)) -> keeps p (bind c k).
Proof.
  intros Hc Hk w b w' t H. unfold bind in H.
  destruct (c w) as [[[a w1] t1] | ] eqn:E1; [ | discriminate].
  destruct (k a w1) as [[[b' w2] t2] | ] eqn:E2; [ | discriminate].
  inversion H; subst. rewrite (Hk _ _ _ _ _ E2). apply (Hc _ _ _ _ E1).
Qed.

Lemma keeps_whenM b c : keeps p c -> keeps p (whenM b c).
Proof. intros Hc. destruct b; [exact Hc | apply keeps_ret]. Qed.

Lemma keeps_upd f :
  (forall mp b, p (mk_world (f mp) b) = p (mk_world mp b)) -> keeps p (upd f).
Proof.
  intros Hf w a w' t H. inversion H. destruct w as [mp b]. apply Hf.
Qed.

End Keeps.

Lemma keeps_pure {X A} (p : world -> X) (c : M A) :
  keeps (fun w => w) c -> keeps p c.
Proof. intros H w a w' t E. f_equal. apply (H _ _ _ _ E). Qed.

(* [keeps] follows the structure of the computation *)
Ltac keeps_step :=
  lazymatch goal with
  | |- keeps _ (bind _ _) => apply keeps_bind; [ | intros ? ]
  | |- keeps _ (ret _) => apply keeps_ret
  | |- keeps _ (rd _) => apply keeps_rd
  | |- keeps _ (emit _) => apply keeps_emit
  | |- keeps _ (trap _) => apply keeps_trap
  | |- keeps _ (s_thing _) => apply keeps_s_thing
  | |- keeps _ (whenM _ _) => apply keeps_whenM
  | |- keeps _ (upd _) => apply keeps_upd; intros; reflexivity
  | |- keeps _ (if ?b then _ else _) => destruct b
  | |- keeps _ (let _ := _ in _) => cbv zeta
  | |- keeps _ (match ?x with _ => _ end) => destruct x
  | |- keeps _ (sys_vgui _) => apply keeps_emit
  | |- keeps _ (draw_rect _ _ _ _ _ _) => unfold draw_rect
  | |- keeps _ (draw_outlinecolor _ _ _ _) => apply keeps_emit
  | |- keeps _ (draw_fillcolor _ _ _ _) => apply keeps_emit
  | |- keeps _ (draw_erase _ _ _) => apply keeps_emit
  | |- keeps _ (SETFLOAT _ _) => unfold SETFLOAT
  | |- keeps _ (SETSYMBOL _ _) => unfold SETSYMBOL
  | |- keeps _ (outlet_anything _ _) => unfold outlet_anything
  | |- keeps _ (typedmess _ _ _) => unfold typedmess
  | |- keeps _ (send_if_bound _ _ _) => unfold send_if_bound
  end.

Ltac keeps_tac := repeat keeps_step.

Section DrawFrames.
Variable host : t_host.

Lemma mousepad_draw_pure isnew rects :
  keeps (fun w => w) (mousepad_draw host isnew rects).
Proof. unfold mousepad_draw. keeps_tac. Qed.

Lemma mousepad_change_io_pure change iolet :
  keeps (fun w => w) (mousepad_change_io host change iolet).
Proof.
  unfold mousepad_change_io. keeps_tac. apply mousepad_draw_pure.
Qed.

End DrawFrames.

(** ** The colour codec *)

Lemma wrap_small z : in_int z -> wrap z = z.
Proof.
  unfold in_int, INT_MIN, INT_MAX, wrap. intros H.
  rewrite Z.mod_small; lia.
Qed.

Lemma nibble_extract c j :
  0 <= j -> Z.shiftr (Z.land c (Z.shiftl 15 (4 * j))) (4 * j) = nibble c j.
Proof.
  intros Hj. unfold nibble.
  rewrite Z.shiftr_land, Z.shiftr_shiftl_l by lia.
  replace (4 * j - 4 * j) with 0 by lia. rewrite Z.shiftl_0_r.
  change 15 with (Z.ones 4). rewrite Z.land_ones by lia.
  rewrite Z.shiftr_div_pow2 by lia. reflexivity.
Qed.

Lemma nibble_range c j : 0 <= nibble c j < 16.
Proof. unfold nibble. apply Z.mod_pos_bound. lia. Qed.

Lemma int2hexcolor_digits c :
  int2hexcolor c =
  String "#" (String (hexdigit (nibble c 5)) (String (hexdigit (nibble c 4))
  (String (hexdigit (nibble c 3)) (String (hexdigit (nibble c 2))
  (String (hexdigit (nibble c 1)) (String (hexdigit (nibble c 0)) EmptyString)))))).
Proof.
  unfold int2hexcolor, gensym. cbn [int2hexcolor_loop].
  change 0xF00000 with (Z.shiftl 15 (4 * 5)).
  change (Z.shiftr (Z.shiftl 15 (4 * 5)) 4) with (Z.shiftl 15 (4 * 4)).
  change (Z.shiftr (Z.shiftl 15 (4 * 4)) 4) with (Z.shiftl 15 (4 * 3)).
  change (Z.shiftr (Z.shiftl 15 (4 * 3)) 4) with (Z.shiftl 15 (4 * 2)).
  change (Z.shiftr (Z.shiftl 15 (4 * 2)) 4) with (Z.shiftl 15 (4 * 1)).
  change (Z.shiftr (Z.shiftl 15 (4 * 1)) 4) with (Z.shiftl 15 (4 * 0)).
  change (5 - 1) with 4. change (4 - 1) with 3. change (3 - 1) with 2.
  change (2 - 1) with 1. change (1 - 1) with 0.
  rewrite !nibble_extract by lia. reflexivity.
Qed.

Lemma hexval_range a : 0 <= hexval a < 16.
Proof.
  unfold hexval.
  repeat match goal with
         | |- context [if ?b then _ else _] => destruct b eqn:?
         end; lia.
Qed.

Lemma is_hexdigit_nonzero a :
  is_hexdigit a = true -> (Z.of_N (N_of_ascii a) =? 0) = false.
Proof.
  unfold is_hexdigit. intros H. apply Z.eqb_neq. intros E.
  rewrite E in H. discriminate.
Qed.

(* one step of the scan on a character that is not the terminator *)
Lemma scan_digit a intbuf i :
  (if (48 <=? Z.of_N (N_of_ascii a)) && (Z.of_N (N_of_ascii a) <=? 57)
   then aset intbuf i (Z.of_N (N_of_ascii a) - 48)
   else if (65 <=? Z.of_N (N_of_ascii a)) && (Z.of_N (N_of_ascii a) <=? 70)
   then aset intbuf i (Z.of_N (N_of_ascii a) - 55)
   else if (97 <=? Z.of_N (N_of_ascii a)) && (Z.of_N (N_of_ascii a) <=? 102)
   then aset intbuf i (Z.of_N (N_of_ascii a) - 87)
   else intbuf)
  = if is_hexdigit a then aset intbuf i (hexval a) else intbuf.
Proof.
  unfold is_hexdigit, hexval.
  repeat match goal with
         | |- context [if ?b then _ else _] => destruct b eqn:?
         end; simpl; try reflexivity; try discriminate.
Qed.

Lemma pack_step acc v :
  0 <= acc < 2 ^ 20 -> 0 <= v < 16 ->
  iadd (ishl acc 4) v = 16 * acc + v.
Proof.
  intros Ha Hv. unfold iadd, ishl. rewrite Z.shiftl_mul_pow2 by lia.
  change (2 ^ 4) with 16.
  rewrite (wrap_small (acc * 16)) by (unfold in_int, INT_MIN, INT_MAX; lia).
  rewrite wrap_small by (unfold in_int, INT_MIN, INT_MAX; lia). lia.
Qed.

Lemma hexcolor2int_pack6 v0 v1 v2 v3 v4 v5 :
  0 <= v0 < 16 -> 0 <= v1 < 16 -> 0 <= v2 < 16 ->
  0 <= v3 < 16 -> 0 <= v4 < 16 -> 0 <= v5 < 16 ->
  hexcolor2int_pack 6 [v0; v1; v2; v3; v4; v5] 0 0 = pack6 v0 v1 v2 v3 v4 v5.
Proof.
  intros. cbn [hexcolor2int_pack].
  change (aget 0 [v0; v1; v2; v3; v4; v5] 0) with v0.
  change (aget 0 [v0; v1; v2; v3; v4; v5] (0 + 1)) with v1.
  change (aget 0 [v0; v1; v2; v3; v4; v5] (0 + 1 + 1)) with v2.
  change (aget 0 [v0; v1; v2; v3; v4; v5] (0 + 1 + 1 + 1)) with v3.
  change (aget 0 [v0; v1; v2; v3; v4; v5] (0 + 1 + 1 + 1 + 1)) with v4.
  change (aget 0 [v0; v1; v2; v3; v4; v5] (0 + 1 + 1 + 1 + 1 + 1)) with v5.
  rewrite (pack_step 0 v0) by lia.
  rewrite (pack_step _ v1) by lia.
  rewrite (pack_step _ v2) by lia.
  rewrite (pack_step _ v3) by lia.
  rewrite (pack_step _ v4) by lia.
  rewrite (pack_step _ v5) by lia.
  unfold pack6. lia.
Qed.

Lemma scan_step n s i intbuf a :
  0 <= i ->
  String.get (Z.to_nat (i + 1)) s = Some a ->
  is_hexdigit a = true ->
  hexcolor2int_scan (S n) s i intbuf =
  hexcolor2int_scan n s (i + 1) (aset intbuf i (hexval a)).
Proof.
  intros Hi Hg Hd. cbn [hexcolor2int_scan]. cbv zeta.
  unfold char_at. rewrite Hg.
  replace (i + 1 <? 0) with false by (symmetry; apply Z.ltb_ge; lia).
  rewrite (is_hexdigit_nonzero _ Hd), scan_digit, Hd. reflexivity.
Qed.

Lemma scan_stop n s i intbuf :
  0 <= i ->
  String.get (Z.to_nat (i + 1)) s = None ->
  hexcolor2int_scan (S n) s i intbuf = (i, intbuf).
Proof.
  intros Hi Hg. cbn [hexcolor2int_scan]. cbv zeta.
  unfold char_at. rewrite Hg.
  replace (i + 1 <? 0) with false by (symmetry; apply Z.ltb_ge; lia).
  reflexivity.
Qed.

Lemma hexcolor2int_six a0 a1 a2 a3 a4 a5 :
  is_hexdigit a0 = true -> is_hexdigit a1 = true -> is_hexdigit a2 = true ->
  is_hexdigit a3 = true -> is_hexdigit a4 = true -> is_hexdigit a5 = true ->
  hexcolor2int (String "#" (String a0 (String a1 (String a2
               (String a3 (String a4 (String a5 EmptyString)))))))
  = pack6 (hexval a0) (hexval a1) (hexval a2) (hexval a3) (hexval a4) (hexval a5).
Proof.
  intros H0 H1 H2 H3 H4 H5.
  unfold hexcolor2int.
  rewrite (scan_step _ _ _ _ a0) by (lia || reflexivity || assumption).
  rewrite (scan_step _ _ _ _ a1) by (lia || reflexivity || assumption).
  rewrite (scan_step _ _ _ _ a2) by (lia || reflexivity || assumption).
  rewrite (scan_step _ _ _ _ a3) by (lia || reflexivity || assumption).
  rewrite (scan_step _ _ _ _ a4) by (lia || reflexivity || assumption).
  rewrite (scan_step _ _ _ _ a5) by (lia || reflexivity || assumption).
  cbn [hexcolor2int_scan].
  change (0 + 1 + 1 + 1 + 1 + 1 + 1 =? 3) with false. cbv iota.
  apply hexcolor2int_pack6; apply hexval_range.
Qed.

Lemma hexcolor2int_three a0 a1 a2 :
  is_hexdigit a0 = true -> is_hexdigit a1 = true -> is_hexdigit a2 = true ->
  hexcolor2int (String "#" (String a0 (String a1 (String a2 EmptyString))))
  = pack6 (hexval a0) (hexval a0) (hexval a1) (hexval a1) (hexval a2) (hexval a2).
Proof.
  intros H0 H1 H2.
  unfold hexcolor2int.
  rewrite (scan_step _ _ _ _ a0) by (lia || reflexivity || assumption).
  rewrite (scan_step _ _ _ _ a1) by (lia || reflexivity || assumption).
  rewrite (scan_step _ _ _ _ a2) by (lia || reflexivity || assumption).
  rewrite scan_stop by (lia || reflexivity).
  change (0 + 1 + 1 + 1 =? 3) with true. cbv iota.
  apply hexcolor2int_pack6; apply hexval_range.
Qed.

Lemma hexdigit_ok d :
  0 <= d < 16 -> is_hexdigit (hexdigit d) = true /\ hexval (hexdigit d) = d.
Proof.
  intros H.
  assert (E : d = 0 \/ d = 1 \/ d = 2 \/ d = 3 \/ d = 4 \/ d = 5 \/ d = 6 \/
              d = 7 \/ d = 8 \/ d = 9 \/ d = 10 \/ d = 11 \/ d = 12 \/
              d = 13 \/ d = 14 \/ d = 15) by lia.
  repeat (destruct E as [E | E]; [subst d; split; reflexivity | ]).
  subst d; split; reflexivity.
Qed.

Lemma nibbles_recompose c :
  0 <= c <= 0xFFFFFF ->
  pack6 (nibble c 5) (nibble c 4) (nibble c 3) (nibble c 2) (nibble c 1)
        (nibble c 0) = c.
Proof.
  intros H. unfold pack6, nibble. cbn [Z.mul Pos.mul].
  change (2 ^ 20) with 1048576. change (2 ^ 16) with 65536.
  change (2 ^ 12) with 4096. change (2 ^ 8) with 256. change (2 ^ 4) with 16.
  change (2 ^ 0) with 1. rewrite Z.div_1_r.
  Z.to_euclidean_division_equations. lia.
Qed.

Lemma hexcolor2int_of_digits c :
  hexcolor2int (int2hexcolor c) =
  pack6 (nibble c 5) (nibble c 4) (nibble c 3) (nibble c 2) (nibble c 1)
        (nibble c 0).
Proof.
  rewrite int2hexcolor_digits.
  rewrite hexcolor2int_six by (apply hexdigit_ok, nibble_range).
  rewrite !(proj2 (hexdigit_ok _ (nibble_range _ _))). reflexivity.
Qed.

(** C1. For every colour c with 0 <= c <= 0xFFFFFF, int2hexcolor(c) is a string
    of seven characters that starts with '#', and hexcolor2int parses it back
    to exactly c. *)
Theorem int2hexcolor_roundtrip c :
  0 <= c <= 0xFFFFFF ->
  String.length (int2hexcolor c) = 7%nat /\
  char_at (int2hexcolor c) 0 = 35 /\
  hexcolor2int (int2hexcolor c) = c.
Proof.
  intros H. rewrite int2hexcolor_digits.
  split; [reflexivity | split; [reflexivity | ] ].
  rewrite hexcolor2int_six by (apply hexdigit_ok, nibble_range).
  rewrite !(proj2 (hexdigit_ok _ (nibble_range _ _))).
  apply nibbles_recompose, H.
Qed.

(** ** Event callbacks and pixel layout *)

Section Events.
Variable host : t_host.

(** C2. On an object with a positive zoom factor, mousepad_motion with integer
    deltas (deltax, deltay) = ((int)dx, (int)dy) does nothing at all when both
    are 0; otherwise it adds them to xval and yval and then emits, in this
    order, 'drag' with (xval/zoomfactor, yval/zoomfactor) and 'deltas' with
    (deltax/zoomfactor, deltay/zoomfactor), each on the outlet and again on
    the send channel exactly when the send name is not "empty" and some
    receiver is bound to it. *)
Theorem mousepad_motion_spec (w : world) (dx dy : t_float) :
  0 < zoomfactor (obj w) ->
  mousepad_motion dx dy w =
  let mp := obj w in
  let deltax := float2int dx in
  let deltay := float2int dy in
  let xv := iadd (xval mp) deltax in
  let yv := iadd (yval mp) deltay in
  let drag := [A_FLOAT (int2float (Z.quot xv (zoomfactor mp)));
               A_FLOAT (int2float (Z.quot yv (zoomfactor mp)))] in
  let deltas := [A_FLOAT (int2float (Z.quot deltax (zoomfactor mp)));
                 A_FLOAT (int2float (Z.quot deltay (zoomfactor mp)))] in
  let send := negb (sym_eqb (sendname mp) symEmpty)
              && has_thing (sendname mp) (bindings w) in
  if (deltax =? 0) && (deltay =? 0) then Some (tt, w, [])
  else
    Some (tt,
          mk_world
            (set_out (A_FLOAT (int2float (Z.quot deltax (zoomfactor mp))),
                      A_FLOAT (int2float (Z.quot deltay (zoomfactor mp))),
                      snd (out mp))
                     (set_yval yv (set_xval xv mp)))
            (bindings w),
          [Outlet_anything symDrag drag]
            ++ (if send then [Typedmess (sendname mp) symDrag drag] else [])
            ++ [Outlet_anything symDeltas deltas]
            ++ (if send then [Typedmess (sendname mp) symDeltas deltas] else [])).
Proof.
  intros Hz. destruct w as [mp b]. destruct_mp mp.
  cbn [obj bindings zoomfactor] in *. cbv zeta.
  unfold mousepad_motion.
  assert (E : (Z.lor (float2int dx) (float2int dy) =? 0)
              = (float2int dx =? 0) && (float2int dy =? 0)).
  { destruct (Z.eqb_spec (Z.lor (float2int dx) (float2int dy)) 0) as [H | H].
    - apply Z.lor_eq_0_iff in H. destruct H as [-> ->]. reflexivity.
    - symmetry. apply andb_false_iff.
      destruct (Z.eqb_spec (float2int dx) 0) as [Hx | Hx]; [ | now left].
      destruct (Z.eqb_spec (float2int dy) 0) as [Hy | Hy]; [ | now right].
      exfalso. apply H. rewrite Hx, Hy. reflexivity. }
  rewrite E. destruct ((float2int dx =? 0) && (float2int dy =? 0)).
  - reflexivity.
  - mrun; reflexivity.
Qed.

(** C3. On an object with a positive zoom factor, mousepad_click emits the
    three-atom 'button' message (buttonstate, shift, alt as 0 or 1) exactly
    when the incoming buttonstate differs from the stored one, which it then
    stores; it sets xval and yval to the pointer position minus the pixel
    position of the object and emits 'drag' (button down, after grabbing the
    mouse) or 'hover' (button up) with (xval/zoomfactor, yval/zoomfactor);
    every message goes to the outlet and again to the send channel exactly
    when the send name is not "empty" and bound; the result is 1. *)
Theorem mousepad_click_spec (w : world)
        (gl xpix ypix shift alt dbl button : Z) :
  0 < zoomfactor (obj w) ->
  mousepad_click host gl xpix ypix shift alt dbl button w =
  let mp := obj w in
  let changed := negb (button =? buttonstate mp) in
  let send := negb (sym_eqb (sendname mp) symEmpty)
              && has_thing (sendname mp) (bindings w) in
  let xv := isub xpix (text_xpix host (te_xpix mp) gl) in
  let yv := isub ypix (text_ypix host (te_ypix mp) gl) in
  let btn := [A_FLOAT (int2float button); A_FLOAT (int2float shift);
              A_FLOAT (int2float (if alt =? 0 then 0 else 1))] in
  let pos := [A_FLOAT (int2float (Z.quot xv (zoomfactor mp)));
              A_FLOAT (int2float (Z.quot yv (zoomfactor mp)))] in
  let sel := if button =? 0 then symHover else symDrag in
  Some (1,
        mk_world
          (set_out (A_FLOAT (int2float (Z.quot xv (zoomfactor mp))),
                    A_FLOAT (int2float (Z.quot yv (zoomfactor mp))),
                    if changed
                    then A_FLOAT (int2float (if alt =? 0 then 0 else 1))
                    else snd (out mp))
                   (set_yval yv (set_xval xv (set_buttonstate button mp))))
          (bindings w),
        (if changed
         then [Outlet_anything symButton btn]
                ++ (if send then [Typedmess (sendname mp) symButton btn]
                    else [])
         else [])
          ++ (if button =? 0 then []
              else [Glist_grab (glist mp) (int2float xpix) (int2float ypix)])
          ++ [Outlet_anything sel pos]
          ++ (if send then [Typedmess (sendname mp) sel pos] else [])).
Proof.
  intros Hz. destruct w as [mp b]. destruct_mp mp.
  cbn [obj bindings zoomfactor] in *. cbv zeta.
  unfold mousepad_click. msimpl.
  destruct (Z.eqb_spec button f_bs) as [Eb | Eb];
    [subst f_bs | ];
    destruct (button =? 0) eqn:E0; destruct (alt =? 0) eqn:Ea;
    mrun; reflexivity.
Qed.

(** C4. For an object at pixel position (x, y) with zoom factor z,
    mousepad_draw places the base rectangle at (x, y, x+pixw, y+pixh), the
    inlet rectangle at (x, y, x+IOWIDTH*z, y+3*z) and the outlet rectangle at
    (x, y+pixh-3*z, x+IOWIDTH*z, y+pixh), for those of the three that it
    draws; mousepad_getrect reports (x, y, x+pixw, y+pixh) for the glist it
    is asked about.  Sums and products are those of C ints. *)
Theorem pixel_layout (w : world) (gl isnew rects : Z) :
  let mp := obj w in
  let x := text_xpix host (te_xpix mp) (glist mp) in
  let y := text_ypix host (te_ypix mp) (glist mp) in
  let z := zoomfactor mp in
  let canv := glist_getcanvas host (glist mp) in
  let base := (x, y, iadd x (pixw mp), iadd y (pixh mp)) in
  let inlet := (x, y, iadd x (imul (IOWIDTH host) z), iadd y (imul 3 z)) in
  let outlet := (x, isub (iadd y (pixh mp)) (imul 3 z),
                 iadd x (imul (IOWIDTH host) z), iadd y (pixh mp)) in
  let drawn :=
    if rects =? 0
    then Z.lor (Z.lor BASE (if sym_eqb (sendname mp) symEmpty then INLET else 0))
               (if sym_eqb (receivename mp) symEmpty then OUTLET else 0)
    else rects in
  mousepad_draw host isnew rects w =
  Some (tt, w,
        if (isnew =? 0) && negb (glist_isvisible host (glist mp)) then []
        else
          (if Z.land drawn BASE =? 0 then []
           else [rect_cmd canv (self mp) BASE base z isnew])
            ++ (if Z.land drawn INLET =? 0 then []
                else [rect_cmd canv (self mp) INLET inlet z isnew])
            ++ (if Z.land drawn OUTLET =? 0 then []
                else [rect_cmd canv (self mp) OUTLET outlet z isnew])
            ++ [if isnew =? 0 then Canvas_fixlinesfor (glist mp)
                else Sys_vgui (Tk_itemconfigure_fill canv (self mp) BASE
                                                     (intcolor mp))])
  /\ mousepad_getrect host gl w =
     Some ((text_xpix host (te_xpix mp) gl, text_ypix host (te_ypix mp) gl,
            iadd (text_xpix host (te_xpix mp) gl) (pixw mp),
            iadd (text_ypix host (te_ypix mp) gl) (pixh mp)), w, []).
Proof.
  destruct w as [mp b]. destruct_mp mp. cbv zeta. cbn [obj bindings].
  split; [ | reflexivity].
  unfold mousepad_draw, rect_cmd.
  change IOHEIGHT with 3. msimpl.
  destruct (isnew =? 0) eqn:Ei; destruct (glist_isvisible host f_gl) eqn:Ev;
    destruct (rects =? 0) eqn:Er;
    [ destruct (sym_eqb f_sn symEmpty) eqn:Es;
      destruct (sym_eqb f_rn symEmpty) eqn:Ern;
      repeat mstep; reflexivity
    | mrun; reflexivity
    | destruct (sym_eqb f_sn symEmpty) eqn:Es;
      destruct (sym_eqb f_rn symEmpty) eqn:Ern;
      repeat mstep; reflexivity
    | mrun; reflexivity
    | destruct (sym_eqb f_sn symEmpty) eqn:Es;
      destruct (sym_eqb f_rn symEmpty) eqn:Ern;
      repeat mstep; reflexivity
    | mrun; reflexivity
    | destruct (sym_eqb f_sn symEmpty) eqn:Es;
      destruct (sym_eqb f_rn symEmpty) eqn:Ern;
      repeat mstep; reflexivity
    | mrun; reflexivity ].
Qed.

End Events.

(** ** Calls that keep the settings *)

Ltac keeps_more :=
  lazymatch goal with
  | |- keeps _ (mousepad_draw _ _ _) => apply keeps_pure, mousepad_draw_pure
  | |- keeps _ (mousepad_change_io _ _ _) =>
      apply keeps_pure, mousepad_change_io_pure
  end.

Ltac keeps_all := repeat first [keeps_step | keeps_more].

Section CallFrames.
Variable host : t_host.

Lemma run_keeps c :
  match c with
  | Size _ _ | Zoom _ | Color _ _ | Receive _ => True
  | _ => keeps kept (run host c)
  end.
Proof.
  destruct c; try exact I; cbn [run].
  - unfold mousepad_motion. keeps_all.
  - unfold mousepad_delta. keeps_all.
  - unfold mousepad_pos. keeps_all.
  - unfold mousepad_send. keeps_all.
  - unfold mousepad_status. keeps_all.
  - unfold mousepad_get. keeps_all.
  - unfold mousepad_dirty. keeps_all.
  - unfold mousepad_getrect. keeps_all.
  - unfold mousepad_displace. keeps_all.
  - unfold mousepad_select. keeps_all.
  - unfold mousepad_delete. keeps_all.
  - unfold mousepad_vis. keeps_all.
  - unfold mousepad_click. keeps_all.
  - unfold mousepad_save. keeps_all.
  - unfold mousepad_properties. keeps_all.
  - unfold mousepad_init_unexpanded. keeps_all.
Qed.

End CallFrames.

(** ** The results of the settings and of construction *)

Lemma argc_of_cons a argv : argc_of (a :: argv) = argc_of argv + 1.
Proof. unfold argc_of. cbn [List.length]. lia. Qed.

Lemma argc_of_nonneg argv : 0 <= argc_of argv.
Proof. unfold argc_of. lia. Qed.

Lemma mousepad_size_run argv w :
  mousepad_size argv w =
  Some (tt,
        mk_world
          (set_pixh (imul (size_height argv) (zoomfactor (obj w)))
             (set_pixw (imul (size_width argv) (zoomfactor (obj w)))
                (set_height (size_height argv)
                   (set_width (size_width argv) (obj w)))))
          (bindings w), []).
Proof.
  assert (C : forall z, (if z <? 1 then 1 else z) = Z.max 1 z).
  { intros z. destruct (Z.ltb_spec z 1); lia. }
  destruct w as [mp b]. destruct_mp mp. unfold mousepad_size.
  destruct argv as [ | a0 [ | a1 rest]].
  - reflexivity.
  - destruct a0; reflexivity || (cbn; rewrite ?C; reflexivity).
  - pose proof (argc_of_nonneg rest) as Hr.
    rewrite !argc_of_cons.
    replace (1 <=? argc_of rest + 1 + 1) with true
      by (symmetry; apply Z.leb_le; lia).
    replace (argc_of rest + 1 + 1 =? 1) with false
      by (symmetry; apply Z.eqb_neq; lia).
    unfold size_height, size_width, size_dim, IS_A_FLOAT, a_w_float, aget.
    cbn [Z.to_nat Pos.to_nat Pos.iter_op Nat.add nth nth_error].
    destruct a0, a1; cbv zeta; rewrite ?C;
      change (64 <? 1) with false; try reflexivity.
    all: change (DEFSIZE <? 1) with false; cbv iota; try reflexivity.
Qed.

Lemma char_at_0 c s : char_at (String c s) 0 = Z.of_N (N_of_ascii c).
Proof. reflexivity. Qed.

Lemma is_sharp c : (Z.of_N (N_of_ascii c) =? 35) = Ascii.eqb c "#".
Proof.
  destruct (Ascii.eqb_spec c "#") as [-> | H]; [reflexivity | ].
  apply Z.eqb_neq. intros E. apply H.
  rewrite <- (ascii_N_embedding c), <- (ascii_N_embedding "#").
  f_equal. change (N_of_ascii "#") with 35%N. lia.
Qed.

Section Runs.
Variable host : t_host.

Lemma mousepad_color_run s a rest w :
  mousepad_color host s (a :: rest) w =
  Some (tt, mk_world (set_intcolor (color_arg a) (obj w)) (bindings w),
        if glist_isvisible host (glist (obj w))
        then [Sys_vgui (Tk_itemconfigure_fill
                          (glist_getcanvas host (glist (obj w)))
                          (self (obj w)) BASE (color_arg a))]
        else []).
Proof.
  destruct w as [mp b]. destruct_mp mp. unfold mousepad_color.
  pose proof (argc_of_nonneg rest) as Hr. rewrite argc_of_cons.
  replace (argc_of rest + 1 =? 0) with false
    by (symmetry; apply Z.eqb_neq; lia).
  cbv zeta.
  assert (E : (if IS_A_FLOAT (a :: rest) 0
               then Z.land (cast_int (atom_getfloatarg 0 1 (a :: rest))) 0xFFFFFF
               else if IS_A_SYMBOL (a :: rest) 0
               then if char_at (atom_getsymbolarg 0 1 (a :: rest)) 0 =? 35
                    then hexcolor2int (atom_getsymbolarg 0 1 (a :: rest))
                    else DEFCOLOR
               else DEFCOLOR) = color_arg a).
  { destruct a; try reflexivity.
    - cbn. change 16777215 with (Z.ones 24). rewrite Z.land_ones by lia.
      reflexivity.
    - unfold IS_A_FLOAT, IS_A_SYMBOL, atom_getsymbolarg, aget.
      cbn [Z.to_nat nth Z.leb Z.compare Pos.compare]. cbv iota.
      change (1 <=? 0) with false. cbv iota.
      destruct w_symbol as [ | c s']; [reflexivity | ].
      rewrite char_at_0, is_sharp. reflexivity. }
  rewrite E. mrun; reflexivity.
Qed.

Lemma mousepad_zoom_run zoom w :
  exists t,
    mousepad_zoom zoom w =
    Some (tt,
          mk_world
            (set_out (A_FLOAT zoom, snd (fst (out (obj w))), snd (out (obj w)))
               (set_zoomfactor (cast_int zoom)
                  (set_pixh (imul (height (obj w)) (cast_int zoom))
                     (set_pixw (imul (width (obj w)) (cast_int zoom))
                        (obj w)))))
            (bindings w), t).
Proof.
  destruct w as [mp b]. destruct_mp mp. unfold mousepad_zoom.
  mrun; eexists; reflexivity.
Qed.

Lemma mousepad_receive_run name w :
  let mp := obj w in
  let new := canvas_realizedollar host (glist mp) (name_arg name) in
  exists t,
    mousepad_receive host name w =
    Some (tt,
          mk_world (set_receivename new
                      (set_receivename_unexpanded (name_arg name) mp))
                   (rebound (self mp) (receivename mp) new (bindings w)),
          (if sym_eqb (receivename mp) symEmpty then []
           else [Pd_unbind (receivename mp)])
            ++ (if sym_eqb new symEmpty then [] else [Pd_bind new])
            ++ t)
    /\ forallb is_tk t = true
    /\ (t = [] <->
        glist_isvisible host (glist mp) = false
        \/ sym_eqb (receivename mp) symEmpty = sym_eqb new symEmpty).
Proof.
  destruct w as [mp b]. destruct_mp mp. cbv zeta. unfold mousepad_receive.
  unfold name_arg, rebound. msimpl.
  destruct (sym_eqb name s_) eqn:En;
    destruct (sym_eqb f_rn symEmpty) eqn:Eo;
    match goal with
    | |- context [canvas_realizedollar host f_gl ?n] =>
        destruct (sym_eqb (canvas_realizedollar host f_gl n) symEmpty) eqn:Enw
    end;
    destruct (glist_isvisible host f_gl) eqn:Ev;
    mrun; eexists; (split; [reflexivity | split; [reflexivity | ] ]);
    split; intros H; try discriminate H; try reflexivity;
      try (left; reflexivity); try (right; reflexivity);
      destruct H as [H | H]; discriminate H.
Qed.

Lemma mousepad_new_run addr s argv b :
  let mp := new_object host addr argv in
  exists t,
    mousepad_new host addr s argv b =
    Some (tt,
          mk_world mp
            ((receivename_fixed mp, addr)
               :: (if sym_eqb (receivename mp) symEmpty then []
                   else [(receivename mp, addr)]) ++ b),
          t).
Proof.
  cbv zeta. unfold mousepad_new, new_object, pd_new.
  cbn [receivename receivename_fixed].
  set (sn := atom_getsymbolarg 2 (argc_of argv) argv).
  set (rn := atom_getsymbolarg 3 (argc_of argv) argv).
  repeat mstep. rewrite mousepad_size_run.
  unfold mousepad_send, mousepad_receive, mousepad_fixed_sendreceive, name_arg.
  destruct (5 <=? argc_of argv) eqn:E5.
  - assert (exists a0 a1 a2 a3 a4 rest, argv = a0 :: a1 :: a2 :: a3 :: a4 :: rest)
      as (a0 & a1 & a2 & a3 & a4 & rest & ->).
    { apply Z.leb_le in E5. unfold argc_of in E5.
      destruct argv as [ | a0 [ | a1 [ | a2 [ | a3 [ | a4 rest]]]]];
        cbn [List.length] in E5; try lia. repeat eexists. }
    cbn [firstn skipn nth_error].
    destruct (sym_eqb sn s_), (sym_eqb rn s_);
      repeat (mrun; rewrite ?mousepad_color_run); eexists; reflexivity.
  - assert (nth_error argv 4 = None) as ->.
    { apply nth_error_None. apply Z.leb_gt in E5. unfold argc_of in E5. lia. }
    destruct (sym_eqb sn s_), (sym_eqb rn s_);
      mrun; eexists; reflexivity.
Qed.

End Runs.

(** ** Bindings *)

Lemma bound_count_cons s x s' x' b :
  bound_count s x ((s', x') :: b) =
  (b2n (sym_eqb s' s && (x' =? x)%Z) + bound_count s x b)%nat.
Proof.
  unfold bound_count. cbn [filter fst snd].
  destruct (sym_eqb s' s && (x' =? x)); reflexivity.
Qed.

Lemma bound_count_app s x b1 b2 :
  bound_count s x (b1 ++ b2) = (bound_count s x b1 + bound_count s x b2)%nat.
Proof. unfold bound_count. rewrite filter_app, length_app. reflexivity. Qed.

Lemma sym_eqb_sym a b : sym_eqb a b = sym_eqb b a.
Proof. apply String.eqb_sym. Qed.

Lemma bound_count_unbind s s0 x b :
  bound_count s x (unbind_first s0 x b) =
  if sym_eqb s0 s then Nat.pred (bound_count s x b) else bound_count s x b.
Proof.
  induction b as [ | [s' x'] b IH]; cbn [unbind_first].
  - destruct (sym_eqb s0 s); reflexivity.
  - destruct (sym_eqb s' s0) eqn:E1; destruct (x' =? x) eqn:E2;
      cbn [andb]; rewrite ?bound_count_cons, ?IH, ?E2, ?andb_false_r, ?andb_true_r;
      cbn [b2n Nat.add].
    + apply sym_eqb_eq in E1. subst s'. destruct (sym_eqb s0 s); reflexivity.
    + reflexivity.
    + destruct (sym_eqb s0 s) eqn:E3; [ | reflexivity].
      apply sym_eqb_eq in E3. subst s.
      rewrite E1. reflexivity.
    + reflexivity.
Qed.

Lemma bound_count_own s x b : bound_count s x (own x b) = bound_count s x b.
Proof.
  unfold bound_count, own. induction b as [ | [s' x'] b IH]; [reflexivity | ].
  cbn [filter fst snd]. destruct (x' =? x) eqn:E.
  - cbn [filter fst snd]. rewrite E.
    destruct (sym_eqb s' s); cbn [andb List.length]; rewrite IH; reflexivity.
  - rewrite andb_false_r. exact IH.
Qed.

Lemma is_bound_count s x b :
  is_bound s x b = negb (Nat.eqb (bound_count s x b) 0).
Proof.
  unfold is_bound, bound_count. induction b as [ | p b IH]; [reflexivity | ].
  cbn [existsb filter].
  destruct (sym_eqb (fst p) s && (snd p =? x)); [reflexivity | exact IH].
Qed.

Lemma fixed_not_empty x :
  sym_eqb symEmpty ("to-mousepad-" ++ sprintf_lX x)%string = false.
Proof. reflexivity. Qed.

Lemma wrap_range z : in_int (wrap z).
Proof.
  unfold in_int, wrap, INT_MIN, INT_MAX.
  pose proof (Z.mod_pos_bound (z + 2 ^ 31) (2 ^ 32)). lia.
Qed.

Lemma cast_int_range f : in_int (cast_int f).
Proof.
  unfold cast_int, in_int. cbv zeta.
  destruct (Z.leb_spec INT_MIN (Qnum f ÷ Z.pos (Qden f)));
    destruct (Z.leb_spec (Qnum f ÷ Z.pos (Qden f)) INT_MAX);
    cbn [andb]; unfold INT_MIN, INT_MAX in *; lia.
Qed.

Lemma size_dim_pos a : 1 <= size_dim a <= INT_MAX.
Proof.
  unfold size_dim, DEFSIZE.
  destruct a as [[ | f | | | | | | ] | ]; try (unfold INT_MAX; lia).
  pose proof (cast_int_range f) as H.
  unfold in_int, INT_MIN, INT_MAX in *. lia.
Qed.

Lemma size_width_pos argv : 1 <= size_width argv <= INT_MAX.
Proof. apply size_dim_pos. Qed.

Lemma size_height_pos argv : 1 <= size_height argv <= INT_MAX.
Proof.
  unfold size_height. destruct argv as [ | a [ | b r]];
    first [apply size_dim_pos | apply size_width_pos].
Qed.

(** ** Live objects *)

Lemma aset_nat_digits (l : list Z) i v n :
  List.length l = n -> Forall (fun v => 0 <= v < 16) l -> 0 <= v < 16 ->
  List.length (aset_nat l i v) = n
  /\ Forall (fun v => 0 <= v < 16) (aset_nat l i v).
Proof.
  revert i n. induction l as [ | x l IH]; intros i n Hl Hf Hv.
  - destruct i; cbn; auto.
  - inversion Hf; subst. destruct i as [ | i]; cbn [aset_nat].
    + split; [reflexivity | constructor; assumption].
    + destruct (IH i (List.length l) eq_refl H2 Hv) as [IH1 IH2].
      split; [cbn; rewrite IH1; reflexivity | constructor; assumption].
Qed.

Lemma aset_digits l i v : digits6 l -> 0 <= v < 16 -> digits6 (aset l i v).
Proof.
  intros [Hl Hf] Hv. unfold aset. apply aset_nat_digits; assumption.
Qed.

Lemma aget_digits l i : digits6 l -> 0 <= aget 0 l i < 16.
Proof.
  intros [Hl Hf]. unfold aget.
  destruct (nth_in_or_default (Z.to_nat i) l 0) as [H | ->]; [ | lia].
  rewrite Forall_forall in Hf. apply Hf, H.
Qed.

Lemma scan_digits n s i intbuf :
  digits6 intbuf -> digits6 (snd (hexcolor2int_scan n s i intbuf)).
Proof.
  revert i intbuf. induction n as [ | n IH]; intros i intbuf H; [exact H | ].
  cbn [hexcolor2int_scan]. cbv zeta.
  destruct (char_at s (i + 1) =? 0); [exact H | ].
  apply IH.
  repeat match goal with
         | |- context [if ?b then _ else _] => destruct b eqn:?
         end; try exact H; apply aset_digits; try exact H;
    repeat match goal with
           | E : (_ && _) = true |- _ => apply andb_true_iff in E; destruct E
           | E : (_ <=? _) = true |- _ => apply Z.leb_le in E
           end; lia.
Qed.

Lemma hold_digits l : digits6 l -> digits6 (hexcolor2int_hold l).
Proof.
  intros H. unfold hexcolor2int_hold.
  repeat first [ apply aset_digits | apply aget_digits | exact H ].
Qed.

Lemma hexcolor2int_range s : 0 <= hexcolor2int s <= 0xFFFFFF.
Proof.
  unfold hexcolor2int.
  pose proof (scan_digits 6 s 0 [0; 0; 0; 0; 0; 0]) as H.
  destruct (hexcolor2int_scan 6 s 0 [0; 0; 0; 0; 0; 0]) as [i intbuf].
  cbn [snd] in H.
  assert (D : digits6 (if i =? 3 then hexcolor2int_hold intbuf else intbuf)).
  { assert (D0 : digits6 intbuf).
    { apply H. split; [reflexivity | repeat constructor; lia]. }
    destruct (i =? 3); [apply hold_digits | ]; exact D0. }
  destruct D as [Hl Hf].
  destruct (if i =? 3 then hexcolor2int_hold intbuf else intbuf)
    as [ | v0 [ | v1 [ | v2 [ | v3 [ | v4 [ | v5 [ | ]]]]]]]; try discriminate.
  repeat match goal with
         | H : Forall _ (_ :: _) |- _ => inversion H; clear H; subst
         end.
  rewrite hexcolor2int_pack6 by assumption. unfold pack6. lia.
Qed.

Lemma color_arg_range a : 0 <= color_arg a <= 0xFFFFFF.
Proof.
  destruct a; cbn [color_arg]; try (unfold DEFCOLOR; lia).
  - pose proof (Z.mod_pos_bound (cast_int w_float) (2 ^ 24)). lia.
  - destruct w_symbol as [ | c s]; [unfold DEFCOLOR; lia | ].
    destruct (Ascii.eqb c "#"); [apply hexcolor2int_range | unfold DEFCOLOR; lia].
Qed.

Lemma live_kept w w' : kept w' = kept w -> live w -> live w'.
Proof.
  unfold kept, live. intros E. inversion E as [[E1 E2 E3 E4 E5 E6 E7 E8 E9 E10]].
  cbv zeta. rewrite E1, E2, E3, E4, E5, E6, E7, E8, E9, E10. exact (fun H => H).
Qed.

Lemma host_live w w' : host_step w w' -> live w -> live w'.
Proof.
  intros H L. destruct H as [w xpix ypix | w bb | w b Hb].
  - exact L.
  - exact L.
  - unfold live in *. cbn [obj bindings].
    destruct L as (L1 & L2 & L3 & L4 & L5 & L6 & L7).
    repeat split; try assumption; try apply L1; try apply L2; try apply L5.
    intros s. rewrite <- bound_count_own, Hb, bound_count_own. apply L7.
Qed.

Section Live.
Variable host : t_host.

Lemma new_live addr s argv b w t :
  own addr b = [] ->
  mousepad_new host addr s argv b = Some (tt, w, t) -> live w.
Proof.
  intros Hb H. destruct (mousepad_new_run host addr s argv b) as [t' E].
  rewrite E in H. inversion H; subst w t. clear H E.
  unfold live, new_object. cbn [obj bindings width height pixw pixh zoomfactor
    intcolor receivename receivename_fixed self]. cbv zeta.
  repeat split; try apply size_width_pos; try apply size_height_pos.
  - destruct (nth_error argv 4); [apply color_arg_range | unfold DEFCOLOR; lia].
  - destruct (nth_error argv 4); [apply color_arg_range | unfold DEFCOLOR; lia].
  - intros s0. unfold gensym.
    set (fx := ("to-mousepad-" ++ sprintf_lX addr)%string).
    set (rn := canvas_realizedollar host (canvas_getcurrent host)
                 (name_arg (atom_getsymbolarg 3 (argc_of argv) argv))).
    rewrite bound_count_cons, bound_count_app.
    rewrite <- (bound_count_own s0 addr b), Hb.
    subst fx. cbn [append].
    rewrite Z.eqb_refl, andb_true_r, (sym_eqb_sym _ s0).
    destruct (sym_eqb rn symEmpty) eqn:Er.
    + rewrite andb_false_r. reflexivity.
    + rewrite bound_count_cons, Z.eqb_refl, !andb_true_r, (sym_eqb_sym rn s0).
      unfold bound_count. cbn. lia.
Qed.

Lemma receive_live name w w' t :
  live w -> mousepad_receive host name w = Some (tt, w', t) -> live w'.
Proof.
  intros L H. destruct (mousepad_receive_run host name w) as (t' & E & _).
  rewrite E in H. inversion H; subst w' t. clear H E.
  destruct L as (L1 & L2 & L3 & L4 & L5 & L6 & L7).
  unfold live. destruct w as [mp b]. destruct_mp mp.
  cbn [obj bindings width height pixw pixh zoomfactor intcolor receivename
       receivename_fixed self glist set_receivename
       set_receivename_unexpanded] in *.
  repeat split; try assumption; try apply L1; try apply L2; try apply L5.
  intros s. unfold rebound.
  set (new := canvas_realizedollar host f_gl (name_arg name)).
  rewrite bound_count_app.
  assert (E : bound_count s f_self
                (if sym_eqb f_rn symEmpty then b else unbind_first f_rn f_self b)
              = b2n (sym_eqb s f_rf)).
  { destruct (sym_eqb f_rn symEmpty) eqn:Eo.
    - rewrite L7, ?Eo. cbn [negb]. rewrite andb_false_r. cbn [b2n]. lia.
    - rewrite bound_count_unbind, L7, ?Eo. cbn [negb]. rewrite andb_true_r.
      rewrite (sym_eqb_sym f_rn s).
      destruct (sym_eqb s f_rn); cbn [b2n]; [ | lia].
      rewrite Nat.add_comm. reflexivity. }
  rewrite E.
  destruct (sym_eqb new symEmpty) eqn:En.
  - cbn [negb]. rewrite andb_false_r. unfold bound_count. cbn. lia.
  - rewrite bound_count_cons, Z.eqb_refl, !andb_true_r, (sym_eqb_sym new s).
    unfold bound_count. cbn [filter List.length negb]. lia.
Qed.

Lemma call_live c w w' t :
  live w -> run host c w = Some (tt, w', t) -> live w'.
Proof.
  intros L H. pose proof (run_keeps host c) as K.
  destruct c;
    try (apply (live_kept w); [exact (K _ _ _ _ H) | exact L]); cbn [run] in H.
  - (* size *)
    unfold mousepad_resize, bind in H. rewrite mousepad_size_run in H.
    match type of H with
    | context [mousepad_draw host ?i ?r ?w1] =>
        destruct (mousepad_draw host i r w1) as [[[u w2] t2] | ] eqn:Ed;
          [ | discriminate];
          pose proof (mousepad_draw_pure host i r _ _ _ _ Ed) as Ew
    end.
    inversion H; subst. cbn beta in Ew. subst w'.
    destruct L as (L1 & L2 & L3 & L4 & L5 & L6 & L7).
    destruct w as [mp b]. destruct_mp mp. unfold live.
    cbn [obj bindings width height pixw pixh zoomfactor intcolor receivename
         receivename_fixed self set_pixh set_pixw set_height set_width] in *.
    repeat split; try assumption; try apply L5;
      first [apply size_width_pos | apply size_height_pos].
  - (* color *)
    destruct argv as [ | a rest].
    + inversion H; subst. exact L.
    + rewrite mousepad_color_run in H. inversion H; subst.
      destruct L as (L1 & L2 & L3 & L4 & L5 & L6 & L7).
      destruct w as [mp b]. destruct_mp mp. unfold live.
      cbn [obj bindings width height pixw pixh zoomfactor intcolor receivename
           receivename_fixed self set_intcolor] in *.
      repeat split; try assumption; try apply L1; try apply L2;
        apply color_arg_range.
  - (* receive *)
    exact (receive_live _ _ _ _ L H).
  - (* zoom *)
    destruct (mousepad_zoom_run zoom w) as [t' E].
    rewrite E in H. inversion H; subst.
    destruct L as (L1 & L2 & L3 & L4 & L5 & L6 & L7).
    destruct w as [mp b]. destruct_mp mp. unfold live.
    cbn [obj bindings width height pixw pixh zoomfactor intcolor receivename
         receivename_fixed self set_out set_zoomfactor set_pixh set_pixw] in *.
    repeat split; try assumption; try apply L1; try apply L2; apply L5.
Qed.

End Live.

Lemma reachable_live w : reachable w -> live w.
Proof.
  induction 1 as [host addr s argv b w t Hb H | host w c w' t _ IH H
                 | w w' _ IH H].
  - exact (new_live host _ _ _ _ _ _ Hb H).
  - exact (call_live host _ _ _ _ IH H).
  - exact (host_live _ _ H IH).
Qed.

(** ** What the settings draw and bind *)

Section Redraws.
Variable host : t_host.



Lemma mousepad_send_run name w :
  let mp := obj w in
  let sent :=
    set_sendname (canvas_realizedollar host (glist mp) (name_arg name))
      (set_sendname_unexpanded (name_arg name) mp) in
  mousepad_send host name w
  = Some (tt, mk_world sent (bindings w),
          iolet_change host sent INLET
                       (sym_eqb (sendname mp) symEmpty)
                       (sym_eqb (name_arg name) symEmpty)).
Proof.
  cbv zeta. destruct w as [mp b]. destruct_mp mp.
  unfold mousepad_send, name_arg, iolet_change, rect_pix, rect_cmd.
  change IOHEIGHT with 3. msimpl.
  destruct (sym_eqb name s_) eqn:En;
    destruct (sym_eqb f_sn symEmpty) eqn:Es;
    rewrite ?sym_eqb_refl;
    try destruct (sym_eqb name symEmpty) eqn:Ee;
    destruct (glist_isvisible host f_gl) eqn:Ev;
    mrun; reflexivity.
Qed.

Lemma mousepad_receive_exact name w :
  let mp := obj w in
  let new := canvas_realizedollar host (glist mp) (name_arg name) in
  let received :=
    set_receivename new (set_receivename_unexpanded (name_arg name) mp) in
  mousepad_receive host name w
  = Some (tt,
          mk_world received
                   (rebound (self mp) (receivename mp) new (bindings w)),
          (if sym_eqb (receivename mp) symEmpty then []
           else [Pd_unbind (receivename mp)])
            ++ (if sym_eqb new symEmpty then [] else [Pd_bind new])
            ++ iolet_change host received OUTLET
                            (sym_eqb (receivename mp) symEmpty)
                            (sym_eqb new symEmpty)).
Proof.
  cbv zeta. destruct w as [mp b]. destruct_mp mp.
  unfold mousepad_receive, name_arg, rebound, iolet_change, rect_pix, rect_cmd.
  change IOHEIGHT with 3. msimpl.
  destruct (sym_eqb name s_) eqn:En;
    destruct (sym_eqb f_rn symEmpty) eqn:Eo;
    match goal with
    | |- context [canvas_realizedollar host f_gl ?n] =>
        destruct (sym_eqb (canvas_realizedollar host f_gl n) symEmpty) eqn:Enw
    end;
    destruct (glist_isvisible host f_gl) eqn:Ev;
    mrun; reflexivity.
Qed.

End Redraws.

(** ** Settings *)

Lemma cast_int_int2float z : in_int z -> cast_int (int2float z) = z.
Proof.
  intros H. unfold cast_int, int2float, inject_Z. cbn [Qnum Qden].
  rewrite Z.quot_1_r. cbv zeta. unfold in_int in H.
  replace (INT_MIN <=? z) with true by (symmetry; apply Z.leb_le, H).
  replace (z <=? INT_MAX) with true by (symmetry; apply Z.leb_le, H).
  reflexivity.
Qed.

Section Settings.
Variable host : t_host.

(** C8. 'color' without arguments returns at once and changes nothing; with a
    float first argument f it sets the fill colour to (int)f modulo 2^24;
    with a symbol first argument that starts with '#' to hexcolor2int of the
    symbol; with any other symbol to the default 0xDDDDDD.  Whenever it sets
    the colour it also sends it to the canvas if the glist is visible. *)
Theorem mousepad_color_spec (s : t_symbol) (w : world) :
  let mp := obj w in
  let fill (c : Z) :=
    Some (tt, mk_world (set_intcolor c mp) (bindings w),
          if glist_isvisible host (glist mp)
          then [Sys_vgui (Tk_itemconfigure_fill
                            (glist_getcanvas host (glist mp)) (self mp) BASE c)]
          else []) in
  mousepad_color host s [] w = Some (tt, w, [])
  /\ (forall f rest,
         mousepad_color host s (A_FLOAT f :: rest) w
         = fill (cast_int f mod 2 ^ 24))
  /\ (forall c name rest,
         mousepad_color host s (A_SYMBOL (String c name) :: rest) w
         = fill (if Ascii.eqb c "#" then hexcolor2int (String c name)
                 else 0xDDDDDD))
  /\ (forall rest,
         mousepad_color host s (A_SYMBOL EmptyString :: rest) w = fill 0xDDDDDD).
Proof.
  cbv zeta. split; [reflexivity | ].
  split; [ | split]; intros; rewrite mousepad_color_run; reflexivity.
Qed.


End Settings.

(** ** Invariants, teardown and the save line *)

(** C9. For three hex digits d0 d1 d2, hexcolor2int of the shorthand string
    "#d0d1d2" is the integer whose nibbles, most significant first, are
    d0 d0 d1 d1 d2 d2, which is also what it returns for "#d0d0d1d1d2d2". *)
Theorem hexcolor2int_shorthand (a0 a1 a2 : ascii) :
  is_hexdigit a0 = true -> is_hexdigit a1 = true -> is_hexdigit a2 = true ->
  hexcolor2int (String "#" (String a0 (String a1 (String a2 EmptyString))))
  = pack6 (hexval a0) (hexval a0) (hexval a1) (hexval a1) (hexval a2) (hexval a2)
  /\ hexcolor2int (String "#" (String a0 (String a1 (String a2 EmptyString))))
     = hexcolor2int (String "#" (String a0 (String a0 (String a1 (String a1
                    (String a2 (String a2 EmptyString))))))).
Proof.
  intros H0 H1 H2.
  rewrite hexcolor2int_three, hexcolor2int_six by assumption.
  split; reflexivity.
Qed.

(** C10. In every state that an object reaches after its construction, by any
    sequence of calls that includes 'size' and zoom, width >= 1, height >= 1,
    pixw = width * zoomfactor and pixh = height * zoomfactor (products of C
    ints); and mousepad_size in such a state sets width and height to
    [size_width] and [size_height] of its arguments: a float dimension
    clamped to at least 1, 64 for a missing or non-float one, and the height
    equal to the width when there is exactly one argument. *)
Theorem size_invariant (w : world) :
  reachable w ->
  let mp := obj w in
  (1 <= width mp /\ 1 <= height mp
   /\ pixw mp = imul (width mp) (zoomfactor mp)
   /\ pixh mp = imul (height mp) (zoomfactor mp))
  /\ forall argv,
      mousepad_size argv w =
      Some (tt,
            mk_world
              (set_pixh (imul (size_height argv) (zoomfactor mp))
                 (set_pixw (imul (size_width argv) (zoomfactor mp))
                    (set_height (size_height argv)
                       (set_width (size_width argv) mp))))
              (bindings w), []).
Proof.
  intros R. apply reachable_live in R.
  destruct R as (L1 & L2 & L3 & L4 & _). cbv zeta.
  split; [ | intros argv; apply mousepad_size_run].
  repeat split; try assumption; first [apply L1 | apply L2].
Qed.

Lemma live_bound_fixed w :
  live w ->
  is_bound (receivename_fixed (obj w)) (self (obj w)) (bindings w) = true.
Proof.
  intros (_ & _ & _ & _ & _ & _ & L7).
  rewrite is_bound_count, L7, sym_eqb_refl. reflexivity.
Qed.

Lemma live_bound_receivename w :
  live w ->
  is_bound (receivename (obj w)) (self (obj w)) (bindings w)
  = negb (sym_eqb (receivename (obj w)) symEmpty).
Proof.
  intros (_ & _ & _ & _ & _ & L6 & L7).
  rewrite is_bound_count, L7, sym_eqb_refl. cbn [andb].
  destruct (sym_eqb (receivename (obj w)) symEmpty) eqn:E.
  - apply sym_eqb_eq in E. rewrite E, L6, fixed_not_empty. reflexivity.
  - cbn [negb b2n]. rewrite Nat.add_comm. reflexivity.
Qed.

Lemma mousepad_free_run w :
  mousepad_free w =
  Some (tt, mk_world (obj w) (unbound (obj w) (bindings w)),
        [Pd_unbind (receivename_fixed (obj w))]
          ++ (if sym_eqb (receivename (obj w)) symEmpty then []
              else [Pd_unbind (receivename (obj w))])).
Proof.
  destruct w as [mp b]. destruct_mp mp. unfold mousepad_free, unbound.
  mrun; reflexivity.
Qed.

Lemma live_unbound w s :
  live w -> is_bound s (self (obj w)) (unbound (obj w) (bindings w)) = false.
Proof.
  intros (_ & _ & _ & _ & _ & L6 & L7).
  rewrite is_bound_count. unfold unbound. cbv zeta.
  destruct (sym_eqb (receivename (obj w)) symEmpty) eqn:E.
  - rewrite bound_count_unbind, L7, ?E. cbn [negb]. rewrite andb_false_r.
    rewrite (sym_eqb_sym _ s). destruct (sym_eqb s _); reflexivity.
  - rewrite !bound_count_unbind, L7, ?E. cbn [negb]. rewrite andb_true_r.
    rewrite (sym_eqb_sym (receivename (obj w)) s),
      (sym_eqb_sym (receivename_fixed (obj w)) s).
    destruct (sym_eqb s (receivename (obj w))),
      (sym_eqb s (receivename_fixed (obj w))); reflexivity.
Qed.

(** C7. In every state that an object reaches after its construction it is
    bound to its fixed receive name "to-mousepad-<objID>", and it is bound to
    its expanded user receive name exactly when that name is not "empty";
    mousepad_receive first unbinds the old name if that is not "empty" and
    then binds the new expanded name if that is not "empty", before it
    redraws; mousepad_free unbinds the fixed name and then the user receive
    name if that is not "empty", after which the object is bound to
    nothing. *)
Theorem receive_binding_invariant (host : t_host) (w : world) :
  reachable w ->
  let mp := obj w in
  (receivename_fixed mp = ("to-mousepad-" ++ sprintf_lX (self mp))%string
   /\ is_bound (receivename_fixed mp) (self mp) (bindings w) = true
   /\ is_bound (receivename mp) (self mp) (bindings w)
      = negb (sym_eqb (receivename mp) symEmpty))
  /\ (forall name,
         let new := canvas_realizedollar host (glist mp) (name_arg name) in
         exists t,
           mousepad_receive host name w =
           Some (tt,
                 mk_world (set_receivename new
                             (set_receivename_unexpanded (name_arg name) mp))
                          (rebound (self mp) (receivename mp) new (bindings w)),
                 (if sym_eqb (receivename mp) symEmpty then []
                  else [Pd_unbind (receivename mp)])
                   ++ (if sym_eqb new symEmpty then [] else [Pd_bind new])
                   ++ t)
           /\ forallb is_tk t = true)
  /\ (mousepad_free w =
      Some (tt, mk_world mp (unbound mp (bindings w)),
            [Pd_unbind (receivename_fixed mp)]
              ++ (if sym_eqb (receivename mp) symEmpty then []
                  else [Pd_unbind (receivename mp)]))
      /\ forall s, is_bound s (self mp) (unbound mp (bindings w)) = false).
Proof.
  intros R. apply reachable_live in R. cbv zeta.
  split; [ | split].
  - split; [apply R | ].
    split; [apply live_bound_fixed | apply live_bound_receivename]; exact R.
  - intros name.
    destruct (mousepad_receive_run host name w) as (t & E & Htk & _).
    exists t. split; assumption.
  - split; [apply mousepad_free_run | intros s; apply live_unbound, R].
Qed.

Lemma argc_of_saved mp : argc_of (saved_args mp) = 5.
Proof. reflexivity. Qed.

(** ** Further properties: the colour codec on any input *)

Lemma nibbles_low24 c :
  pack6 (nibble c 5) (nibble c 4) (nibble c 3) (nibble c 2) (nibble c 1)
        (nibble c 0) = c mod 2 ^ 24.
Proof.
  unfold pack6, nibble. cbn [Z.mul Pos.mul].
  change (2 ^ 24) with 16777216.
  change (2 ^ 20) with 1048576. change (2 ^ 16) with 65536.
  change (2 ^ 12) with 4096. change (2 ^ 8) with 256. change (2 ^ 4) with 16.
  change (2 ^ 0) with 1. rewrite Z.div_1_r.
  Z.to_euclidean_division_equations. lia.
Qed.

Lemma hexval_other a : is_hexdigit a = false -> hexval a = 0.
Proof.
  unfold is_hexdigit, hexval.
  repeat match goal with
         | |- context [if ?b then _ else _] => destruct b eqn:?
         end; cbn; intros; try reflexivity; discriminate.
Qed.

Lemma code_nonzero a :
  Ascii.eqb a Ascii.zero = false -> (Z.of_N (N_of_ascii a) =? 0) = false.
Proof.
  intros H. apply Ascii.eqb_neq in H. apply Z.eqb_neq. intros E. apply H.
  rewrite <- (ascii_N_embedding a). replace (N_of_ascii a) with 0%N by lia.
  reflexivity.
Qed.

Lemma scan_step_any n s i intbuf a :
  0 <= i ->
  String.get (Z.to_nat (i + 1)) s = Some a ->
  Ascii.eqb a Ascii.zero = false ->
  hexcolor2int_scan (S n) s i intbuf =
  hexcolor2int_scan n s (i + 1)
    (if is_hexdigit a then aset intbuf i (hexval a) else intbuf).
Proof.
  intros Hi Hg Hd. cbn [hexcolor2int_scan]. cbv zeta.
  unfold char_at. rewrite Hg.
  replace (i + 1 <? 0) with false by (symmetry; apply Z.ltb_ge; lia).
  rewrite (code_nonzero _ Hd), scan_digit. reflexivity.
Qed.

(** X1. Whatever string it is given, hexcolor2int returns a 24-bit colour:
    a value from 0 to 0xFFFFFF. *)
Theorem hexcolor2int_bounded (s : string) : 0 <= hexcolor2int s <= 0xFFFFFF.
Proof. apply hexcolor2int_range. Qed.

(** X2. For every int c, also a negative one or one above 0xFFFFFF,
    int2hexcolor(c) has seven characters, starts with '#' and only depends
    on the low 24 bits of c, and hexcolor2int reads those low 24 bits back. *)
Theorem int2hexcolor_low24 (c : Z) :
  String.length (int2hexcolor c) = 7%nat
  /\ char_at (int2hexcolor c) 0 = 35
  /\ int2hexcolor c = int2hexcolor (c mod 2 ^ 24)
  /\ hexcolor2int (int2hexcolor c) = c mod 2 ^ 24.
Proof.
  split; [rewrite int2hexcolor_digits; reflexivity | ].
  split; [rewrite int2hexcolor_digits; reflexivity | ].
  split.
  - rewrite !int2hexcolor_digits.
    assert (N : forall j, 0 <= j < 6 -> nibble (c mod 2 ^ 24) j = nibble c j).
    { intros j Hj. unfold nibble.
      assert (E : j = 0 \/ j = 1 \/ j = 2 \/ j = 3 \/ j = 4 \/ j = 5) by lia.
      change (2 ^ 24) with 16777216.
      destruct E as [-> | [-> | [-> | [-> | [-> | ->]]]]]; cbn [Z.mul Pos.mul];
        [ change (2 ^ 0) with 1 | change (2 ^ 4) with 16
        | change (2 ^ 8) with 256 | change (2 ^ 12) with 4096
        | change (2 ^ 16) with 65536 | change (2 ^ 20) with 1048576 ];
        Z.to_euclidean_division_equations; lia. }
    rewrite !N by lia. reflexivity.
  - rewrite hexcolor2int_of_digits. apply nibbles_low24.
Qed.

(** X3. hexcolor2int reads the six characters that follow the first one of
    its argument, whatever comes after them: a character that is no hex
    digit counts as the digit 0, and the first character is not looked at
    (the claim is stated for '#').  The six characters are not NUL, which
    would end the C string. *)
Theorem hexcolor2int_six_chars (a0 a1 a2 a3 a4 a5 : ascii) (rest : string) :
  Ascii.eqb a0 Ascii.zero = false -> Ascii.eqb a1 Ascii.zero = false ->
  Ascii.eqb a2 Ascii.zero = false -> Ascii.eqb a3 Ascii.zero = false ->
  Ascii.eqb a4 Ascii.zero = false -> Ascii.eqb a5 Ascii.zero = false ->
  hexcolor2int (String "#" (String a0 (String a1 (String a2
               (String a3 (String a4 (String a5 rest)))))))
  = pack6 (hexval a0) (hexval a1) (hexval a2) (hexval a3) (hexval a4) (hexval a5).
Proof.
  intros H0 H1 H2 H3 H4 H5.
  unfold hexcolor2int.
  rewrite (scan_step_any _ _ _ _ a0) by (lia || reflexivity || assumption).
  rewrite (scan_step_any _ _ _ _ a1) by (lia || reflexivity || assumption).
  rewrite (scan_step_any _ _ _ _ a2) by (lia || reflexivity || assumption).
  rewrite (scan_step_any _ _ _ _ a3) by (lia || reflexivity || assumption).
  rewrite (scan_step_any _ _ _ _ a4) by (lia || reflexivity || assumption).
  rewrite (scan_step_any _ _ _ _ a5) by (lia || reflexivity || assumption).
  cbn [hexcolor2int_scan].
  change (0 + 1 + 1 + 1 + 1 + 1 + 1 =? 3) with false. cbv iota.
  destruct (is_hexdigit a0) eqn:E0; destruct (is_hexdigit a1) eqn:E1;
    destruct (is_hexdigit a2) eqn:E2; destruct (is_hexdigit a3) eqn:E3;
    destruct (is_hexdigit a4) eqn:E4; destruct (is_hexdigit a5) eqn:E5;
    rewrite ?(hexval_other _ E0), ?(hexval_other _ E1), ?(hexval_other _ E2),
      ?(hexval_other _ E3), ?(hexval_other _ E4), ?(hexval_other _ E5);
    apply hexcolor2int_pack6; first [apply hexval_range | lia].
Qed.

(** ** Further properties: construction and identity *)

Lemma hexnum_upper_hex n x acc :
  0 <= x < 16 ^ Z.of_nat n ->
  hexnum (upper_hex n x acc) 0 = hexnum acc x.
Proof.
  revert x acc. induction n as [ | n IH]; intros x acc Hx.
  - cbn in Hx. assert (x = 0) by lia. subst. reflexivity.
  - cbn [upper_hex]. destruct (Z.eqb_spec x 0) as [-> | Hx0]; [reflexivity | ].
    cbv zeta.
    rewrite Nat2Z.inj_succ, Z.pow_succ_r in Hx by lia.
    rewrite IH by (split; [apply Z.div_pos; lia | apply Z.div_lt_upper_bound; lia]).
    cbn [hexnum].
    change (char_of_int (if x mod 16 <? 10 then x mod 16 + 48 else x mod 16 + 55))
      with (hexdigit (x mod 16)).
    rewrite (proj2 (hexdigit_ok (x mod 16) (Z.mod_pos_bound x 16 eq_refl))).
    f_equal. pose proof (Z.div_mod x 16). lia.
Qed.

Lemma sscanf_sprintf_lX n : sscanf_lX (sprintf_lX n) = n mod 2 ^ 64.
Proof.
  unfold sprintf_lX. cbv zeta.
  destruct (Z.eqb_spec (n mod 2 ^ 64) 0) as [E | E]; [rewrite E; reflexivity | ].
  cbn [append sscanf_lX].
  rewrite hexnum_upper_hex; [reflexivity | ].
  change (16 ^ Z.of_nat 16) with (2 ^ 64). apply Z.mod_pos_bound. lia.
Qed.

Lemma new_object_firstn host addr argv :
  new_object host addr (firstn 5 argv) = new_object host addr argv.
Proof.
  destruct argv as [ | a0 [ | a1 [ | a2 [ | a3 [ | a4 rest]]]]];
    try reflexivity.
  unfold new_object. cbn [firstn].
  pose proof (argc_of_nonneg rest) as Hr.
  assert (E : forall which, which < 5 ->
                atom_getsymbolarg which (argc_of (a0 :: a1 :: a2 :: a3 :: a4 :: rest))
                                  (a0 :: a1 :: a2 :: a3 :: a4 :: rest)
                = atom_getsymbolarg which (argc_of [a0; a1; a2; a3; a4])
                                    [a0; a1; a2; a3; a4]).
  { intros which Hw. unfold atom_getsymbolarg. rewrite !argc_of_cons.
    replace (argc_of rest + 1 + 1 + 1 + 1 + 1 <=? which) with false
      by (symmetry; apply Z.leb_gt; lia).
    replace (argc_of [] + 1 + 1 + 1 + 1 + 1 <=? which) with false
      by (symmetry; apply Z.leb_gt; unfold argc_of; cbn; lia).
    unfold aget. destruct (Z.to_nat which) as [ | [ | [ | [ | [ | n]]]]] eqn:En;
      try reflexivity. lia. }
  rewrite !E by lia. reflexivity.
Qed.

Section Construction.
Variable host : t_host.

(** X4. mousepad_new returns for every argument list: it builds the object
    of [new_object] (size from arguments 0 and 1, expanded names from
    arguments 2 and 3, colour from argument 4, zoom factor 1, position
    values and button state 0, unexpanded names "empty", the three fixed
    names printed from the address), binds the fixed receive name, and
    before that the user receive name if it is not "empty".  The class name
    it is called with and any argument after the fifth make no difference
    to the object. *)
Theorem mousepad_new_spec (addr : Z) (s : t_symbol) (argv : list t_atom)
        (b : list (t_symbol * Z)) :
  let mp := new_object host addr argv in
  (exists t,
      mousepad_new host addr s argv b =
      Some (tt,
            mk_world mp
              ((receivename_fixed mp, addr)
                 :: (if sym_eqb (receivename mp) symEmpty then []
                     else [(receivename mp, addr)]) ++ b),
            t))
  /\ forall s' b',
      object_after (mousepad_new host addr s' (firstn 5 argv) b') = Some mp.
Proof.
  cbv zeta. split; [apply mousepad_new_run | ].
  intros s' b'.
  destruct (mousepad_new_run host addr s' (firstn 5 argv) b') as [t E].
  rewrite E. cbn [object_after option_map fst snd obj].
  rewrite new_object_firstn. reflexivity.
Qed.

(** X5. The three fixed names that mousepad_fixed_sendreceive prints from
    the address of an object identify it: the object ID reads back as the
    address (as an unsigned 64-bit number), and two objects at different
    addresses differ in their object ID, in their fixed send name and in
    their fixed receive name. *)
Theorem fixed_names_identify (addr1 addr2 : Z) (s1 s2 : t_symbol)
        (argv1 argv2 : list t_atom) (b1 b2 : list (t_symbol * Z)) :
  addr1 mod 2 ^ 64 <> addr2 mod 2 ^ 64 ->
  exists id1 sn1 rn1 id2 sn2 rn2,
    fixed_names_after (mousepad_new host addr1 s1 argv1 b1)
    = Some (id1, sn1, rn1)
    /\ fixed_names_after (mousepad_new host addr2 s2 argv2 b2)
       = Some (id2, sn2, rn2)
    /\ sscanf_lX id1 = addr1 mod 2 ^ 64
    /\ sscanf_lX id2 = addr2 mod 2 ^ 64
    /\ id1 <> id2 /\ sn1 <> sn2 /\ rn1 <> rn2.
Proof.
  intros Hne.
  destruct (mousepad_new_run host addr1 s1 argv1 b1) as [t1 E1].
  destruct (mousepad_new_run host addr2 s2 argv2 b2) as [t2 E2].
  rewrite E1, E2.
  cbn [fixed_names_after option_map fst snd obj new_object objID
       sendname_fixed receivename_fixed].
  unfold gensym. do 6 eexists.
  split; [reflexivity | ]. split; [reflexivity | ].
  split; [apply sscanf_sprintf_lX | ]. split; [apply sscanf_sprintf_lX | ].
  assert (N : sprintf_lX addr1 <> sprintf_lX addr2).
  { intros E. apply Hne. rewrite <- !sscanf_sprintf_lX, E. reflexivity. }
  split; [exact N | ].
  split; intros E; apply N; cbn [append] in E; inversion E; reflexivity.
Qed.

End Construction.

(** X6. In every state that an object reaches after its construction, the
    number of its bindings to a name s is one if s is its fixed receive
    name, plus one if s is its user receive name and that is not "empty":
    no name is bound twice over, and no binding to an earlier receive name
    is left behind. *)
Theorem bindings_exact (w : world) (s : t_symbol) :
  reachable w ->
  let mp := obj w in
  bound_count s (self mp) (bindings w) =
  ((if sym_eqb s (receivename_fixed mp) then 1 else 0)
   + (if sym_eqb s (receivename mp) && negb (sym_eqb (receivename mp) symEmpty)
      then 1 else 0))%nat.
Proof.
  intros R. apply reachable_live in R.
  destruct R as (_ & _ & _ & _ & _ & _ & L7). apply L7.
Qed.

(** X7. In every state that an object reaches after its construction, the
    fill colour is a 24-bit value, so the webcolor symbol that the save
    line and the properties dialog get for it reads back as the same
    colour; and width and height are C ints. *)
Theorem color_invariant (w : world) :
  reachable w ->
  let mp := obj w in
  0 <= intcolor mp <= 0xFFFFFF
  /\ hexcolor2int (int2hexcolor (intcolor mp)) = intcolor mp
  /\ color_arg (A_SYMBOL (int2hexcolor (intcolor mp))) = intcolor mp
  /\ width mp <= INT_MAX /\ height mp <= INT_MAX.
Proof.
  intros R. apply reachable_live in R.
  destruct R as (L1 & L2 & _ & _ & L5 & _). cbv zeta.
  assert (E : hexcolor2int (int2hexcolor (intcolor (obj w))) = intcolor (obj w)).
  { rewrite hexcolor2int_of_digits. apply nibbles_recompose, L5. }
  split; [exact L5 | ]. split; [exact E | ].
  split; [ | split; [apply L1 | apply L2] ].
  rewrite <- E at 2. rewrite int2hexcolor_digits. reflexivity.
Qed.

(** ** Further properties: what a call leaves alone *)

Section Callbacks.
Variable host : t_host.

Lemma resize_inv s argv w w' t :
  mousepad_resize host s argv w = Some (tt, w', t) ->
  w' = mk_world
         (set_pixh (imul (size_height argv) (zoomfactor (obj w)))
            (set_pixw (imul (size_width argv) (zoomfactor (obj w)))
               (set_height (size_height argv)
                  (set_width (size_width argv) (obj w)))))
         (bindings w).
Proof.
  intros H. unfold mousepad_resize, bind in H. rewrite mousepad_size_run in H.
  match type of H with
  | context [mousepad_draw host ?i ?r ?w1] =>
      destruct (mousepad_draw host i r w1) as [[[u w2] t2] | ] eqn:Ed;
        [ | discriminate];
        pose proof (mousepad_draw_pure host i r _ _ _ _ Ed) as Ew
  end.
  inversion H; subst. exact Ew.
Qed.

(** X8. A call of any method or widget callback never changes the address
    of the object, its object ID, its two fixed names or its glist; only
    'receive' changes the bindings and the receive name, only 'color' the
    fill colour, only 'size' the nominal width and height, and only 'size'
    and zoom the pixel size and the zoom factor. *)
Theorem settings_frame (c : call) (w w' : world) (t : list event) :
  run host c w = Some (tt, w', t) ->
  self (obj w') = self (obj w)
  /\ objID (obj w') = objID (obj w)
  /\ sendname_fixed (obj w') = sendname_fixed (obj w)
  /\ receivename_fixed (obj w') = receivename_fixed (obj w)
  /\ glist (obj w') = glist (obj w)
  /\ (match c with Receive _ => True
      | _ => bindings w' = bindings w
             /\ receivename (obj w') = receivename (obj w) end)
  /\ (match c with Color _ _ => True
      | _ => intcolor (obj w') = intcolor (obj w) end)
  /\ (match c with Size _ _ => True
      | _ => width (obj w') = width (obj w)
             /\ height (obj w') = height (obj w) end)
  /\ (match c with Size _ _ | Zoom _ => True
      | _ => pixw (obj w') = pixw (obj w) /\ pixh (obj w') = pixh (obj w)
             /\ zoomfactor (obj w') = zoomfactor (obj w) end).
Proof.
  intros H.
  assert (I : keeps (fun w => (self (obj w), objID (obj w),
                               sendname_fixed (obj w), glist (obj w)))
                    (run host c)).
  { destruct c; cbn [run].
    - unfold mousepad_motion. keeps_all.
    - unfold mousepad_resize, mousepad_size. keeps_all.
    - unfold mousepad_color. keeps_all.
    - unfold mousepad_delta. keeps_all.
    - unfold mousepad_pos. keeps_all.
    - unfold mousepad_send. keeps_all.
    - unfold mousepad_receive, pd_bind, pd_unbind. keeps_all;
        intros ? ? ? ? E; inversion E; reflexivity.
    - unfold mousepad_status. keeps_all.
    - unfold mousepad_get. keeps_all.
    - unfold mousepad_dirty. keeps_all.
    - unfold mousepad_zoom. keeps_all.
    - unfold mousepad_getrect. keeps_all.
    - unfold mousepad_displace. keeps_all.
    - unfold mousepad_select. keeps_all.
    - unfold mousepad_delete. keeps_all.
    - unfold mousepad_vis. keeps_all.
    - unfold mousepad_click. keeps_all.
    - unfold mousepad_save. keeps_all.
    - unfold mousepad_properties. keeps_all.
    - unfold mousepad_init_unexpanded. keeps_all. }
  pose proof (I _ _ _ _ H) as E0. inversion E0 as [[I1 I2 I3 I4]]. clear I E0.
  pose proof (run_keeps host c) as K.
  destruct c;
    try (pose proof (K _ _ _ _ H) as E; unfold kept in E;
         inversion E as [[E1 E2 E3 E4 E5 E6 E7 E8 E9 E10]];
         repeat split; assumption);
    cbn [run] in H.
  - (* size *)
    apply resize_inv in H. subst w'. repeat split.
  - (* color *)
    destruct argv as [ | a rest].
    + inversion H; subst. repeat split.
    + rewrite mousepad_color_run in H. inversion H; subst. repeat split.
  - (* receive *)
    destruct (mousepad_receive_run host name w) as (t' & E & _).
    rewrite E in H. inversion H; subst. repeat split.
  - (* zoom *)
    destruct (mousepad_zoom_run zoom w) as [t' E].
    rewrite E in H. inversion H; subst. repeat split.
Qed.

(** X9. The 'status' and 'dirty' methods, the widget callbacks getrect,
    select, delete and vis, the save callback and the properties callback
    leave the whole state of the object and its bindings as they were. *)
Theorem display_callbacks_pure (c : call) (w w' : world) (t : list event) :
  match c with
  | Status | Dirty | Getrect _ | Select _ _ | Delete _ | Vis _ _ | Save
  | Properties => True
  | _ => False
  end ->
  run host c w = Some (tt, w', t) -> w' = w.
Proof.
  intros Hc H.
  assert (K : keeps (fun w => w) (run host c)).
  { destruct c; try contradiction; cbn [run].
    - unfold mousepad_status. keeps_all.
    - unfold mousepad_dirty. keeps_all.
    - unfold mousepad_getrect. keeps_all.
    - unfold mousepad_select. keeps_all.
    - unfold mousepad_delete. keeps_all.
    - unfold mousepad_vis. keeps_all.
    - unfold mousepad_save. keeps_all.
    - unfold mousepad_properties. keeps_all. }
  exact (K _ _ _ _ H).
Qed.

(** X10. 'size' and zoom commute on the geometry: in either order, for any
    arguments and any state, both return and leave the width and height
    that the arguments of 'size' give, the zoom factor (int)zoom, and the
    pixel size as their products. *)
Theorem size_zoom_commute (s : t_symbol) (argv : list t_atom) (zoom : t_float)
        (w : world) :
  let z := cast_int zoom in
  geometry_after ((mousepad_resize host s argv ;; mousepad_zoom zoom) w)
  = Some (size_width argv, size_height argv,
          imul (size_width argv) z, imul (size_height argv) z, z)
  /\ geometry_after ((mousepad_zoom zoom ;; mousepad_resize host s argv) w)
     = Some (size_width argv, size_height argv,
             imul (size_width argv) z, imul (size_height argv) z, z).
Proof.
  destruct w as [mp b]. destruct_mp mp. cbv zeta.
  unfold geometry_after, mousepad_resize, mousepad_zoom.
  split.
  - unfold bind at 1 2. rewrite mousepad_size_run. mrun; reflexivity.
  - mrun; rewrite mousepad_size_run; mrun; reflexivity.
Qed.

(** ** Further properties: answers, the box text and the position *)

(** X11. With a positive zoom factor, 'get' with one of the selectors size,
    names, color, pos and zoom sends one answer with that selector: to the
    outlet, then to the send name if that is not "empty" and bound, then to
    the fixed send name if that is bound, each with the same atoms (the
    position divided by the zoom factor for pos).  With any other selector
    it sends nothing and changes nothing. *)
Theorem mousepad_get_spec (selector : t_symbol) (w : world) :
  0 < zoomfactor (obj w) ->
  let mp := obj w in
  let reply :=
    if sym_eqb selector symSize
    then [A_FLOAT (int2float (width mp)); A_FLOAT (int2float (height mp))]
    else if sym_eqb selector symNames
    then [A_SYMBOL (sendname_unexpanded mp);
          A_SYMBOL (receivename_unexpanded mp)]
    else if sym_eqb selector symColor
    then [A_FLOAT (int2float (intcolor mp))]
    else if sym_eqb selector symPos
    then [A_FLOAT (int2float (Z.quot (text_xpix host (te_xpix mp) (glist mp))
                                     (zoomfactor mp)));
          A_FLOAT (int2float (Z.quot (text_ypix host (te_ypix mp) (glist mp))
                                     (zoomfactor mp)))]
    else if sym_eqb selector symZoom
    then [A_FLOAT (int2float (zoomfactor mp))]
    else [] in
  trace_of (mousepad_get host selector w)
  = Some (match reply with [] => [] | _ => answer w selector reply end)
  /\ (reply = [] -> mousepad_get host selector w = Some (tt, w, [])).
Proof.
  intros Hz. destruct w as [mp b]. destruct_mp mp.
  cbn [obj zoomfactor] in Hz. cbv zeta.
  unfold mousepad_get, answer, trace_of. msimpl.
  destruct (sym_eqb selector symSize) eqn:E1;
    [ | destruct (sym_eqb selector symNames) eqn:E2;
        [ | destruct (sym_eqb selector symColor) eqn:E3;
            [ | destruct (sym_eqb selector symPos) eqn:E4;
                [ | destruct (sym_eqb selector symZoom) eqn:E5 ] ] ] ];
    (split; [ mrun; reflexivity | intros R; try discriminate R ]).
  mrun; reflexivity.
Qed.

(** X12. mousepad_init_unexpanded always returns, sends nothing, and is
    idempotent: run on its own result it changes nothing.  With a box text
    of at most four atoms it changes nothing at all, and it never replaces
    an unexpanded name that is not "empty". *)
Theorem mousepad_init_unexpanded_idem (w : world) :
  exists w',
    mousepad_init_unexpanded host w = Some (tt, w', [])
    /\ mousepad_init_unexpanded host w' = Some (tt, w', [])
    /\ (argc_of (te_binbuf (obj w)) <= 4 -> w' = w)
    /\ (sym_eqb (sendname_unexpanded (obj w)) symEmpty = false ->
        sendname_unexpanded (obj w') = sendname_unexpanded (obj w))
    /\ (sym_eqb (receivename_unexpanded (obj w)) symEmpty = false ->
        receivename_unexpanded (obj w') = receivename_unexpanded (obj w)).
Proof.
  destruct w as [mp b]. destruct_mp mp.
  unfold mousepad_init_unexpanded. cbn [obj te_binbuf].
  destruct (4 <? argc_of f_bb) eqn:Ea;
    destruct (sym_eqb f_snu symEmpty) eqn:Es;
    destruct (sym_eqb f_rnu symEmpty) eqn:Er;
    mrun; eexists; (split; [reflexivity | ]);
    (split; [mrun; reflexivity | ]);
    (split; [intros Hle; first [reflexivity | apply Z.ltb_lt in Ea; lia] | ]);
    (split; intros Hn; first [reflexivity | discriminate Hn]).
Qed.

(** X13. After 'pos x y' the save line carries the position ((int)x, (int)y),
    at any positive zoom factor: 'pos' multiplies by the zoom factor and
    the save callback divides by it.  This holds when the products are C
    ints that the position fields of the box (te_xpix, te_ypix) hold
    unchanged. *)
Theorem mousepad_pos_save (xpos ypos : t_float) (w : world) :
  let mp := obj w in
  let x := cast_int xpos in
  let y := cast_int ypos in
  0 < zoomfactor mp ->
  in_int (x * zoomfactor mp) -> in_int (y * zoomfactor mp) ->
  te_pix host (x * zoomfactor mp) = x * zoomfactor mp ->
  te_pix host (y * zoomfactor mp) = y * zoomfactor mp ->
  exists w' t,
    mousepad_pos host xpos ypos w = Some (tt, w', t)
    /\ trace_of (mousepad_save w') =
       Some [Binbuf_addv
               ([A_SYMBOL "#X"; A_SYMBOL "obj";
                 A_FLOAT (int2float x); A_FLOAT (int2float y);
                 A_SYMBOL (atom_getsymbol (nth 0 (te_binbuf mp) A_NULL))]
                  ++ saved_args mp);
             Binbuf_addv [A_SEMI]].
Proof.
  cbv zeta. intros Hz Hx Hy Tx Ty.
  destruct w as [mp b]. destruct_mp mp. cbn [obj zoomfactor] in *.
  unfold mousepad_pos, mousepad_save, trace_of, saved_args.
  assert (Ex : imul (cast_int xpos) f_zf = cast_int xpos * f_zf)
    by (apply wrap_small, Hx).
  assert (Ey : imul (cast_int ypos) f_zf = cast_int ypos * f_zf)
    by (apply wrap_small, Hy).
  assert (Qx : Z.quot (cast_int xpos * f_zf) f_zf = cast_int xpos)
    by (apply Z.quot_mul; lia).
  assert (Qy : Z.quot (cast_int ypos * f_zf) f_zf = cast_int ypos)
    by (apply Z.quot_mul; lia).
  mrun; eexists; eexists; (split; [reflexivity | ]); mrun;
    rewrite ?Ex, ?Ey, ?Tx, ?Ty, ?idiv_pos by assumption; msimpl;
    rewrite ?Ex, ?Ey, ?Tx, ?Ty, ?idiv_pos by assumption; msimpl;
    rewrite ?Qx, ?Qy; reflexivity.
Qed.

(** X14. The 'delta' method is the displace callback of the widget, called
    with the two deltas cast to int and multiplied by the zoom factor: the
    two give the same state and the same drawing commands, also when they
    fail. *)
Theorem mousepad_delta_displace (gl : Z) (dx dy : t_float) (w : world) :
  mousepad_delta host dx dy w
  = mousepad_displace host gl
      (imul (cast_int dx) (zoomfactor (obj w)))
      (imul (cast_int dy) (zoomfactor (obj w))) w.
Proof.
  destruct w as [mp b]. destruct_mp mp.
  unfold mousepad_delta, mousepad_displace. mrun; reflexivity.
Qed.

End Callbacks.

(** ** Further properties: the rectangles on the canvas *)

Section EmitsOnly.
Variable ok : event -> bool.

Lemma emits_ret {A} (a : A) : emits_only ok (ret a).
Proof. intros w a' w' t H. inversion H. reflexivity. Qed.

Lemma emits_rd {A} (f : t_mousepad -> A) : emits_only ok (rd f).
Proof. intros w a' w' t H. inversion H. reflexivity. Qed.

Lemma emits_upd f : emits_only ok (upd f).
Proof. intros w a' w' t H. inversion H. reflexivity. Qed.

Lemma emits_trap {A} (o : option A) : emits_only ok (trap o).
Proof.
  intros w a' w' t H. unfold trap in H. destruct o; inversion H. reflexivity.
Qed.

Lemma emits_s_thing f : emits_only ok (s_thing f).
Proof. intros w a' w' t H. inversion H. reflexivity. Qed.

Lemma emits_emit e : ok e = true -> emits_only ok (emit e).
Proof. intros He w a' w' t H. inversion H. cbn. rewrite He. reflexivity. Qed.

Lemma emits_bind {A B} (c : M A) (k : A -> M B) :
  emits_only ok c -> (forall a, emits_only ok (k a)) -> emits_only ok (bind c k).
Proof.
  intros Hc Hk w b w' t H. unfold bind in H.
  destruct (c w) as [[[a w1] t1] | ] eqn:E1; [ | discriminate].
  destruct (k a w1) as [[[b' w2] t2] | ] eqn:E2; [ | discriminate].
  inversion H; subst. rewrite forallb_app.
  rewrite (Hc _ _ _ _ E1), (Hk _ _ _ _ _ E2). reflexivity.
Qed.

Lemma emits_whenM b c : emits_only ok c -> emits_only ok (whenM b c).
Proof. intros Hc. destruct b; [exact Hc | apply emits_ret]. Qed.

End EmitsOnly.

Ltac has_var b := match b with context [?x] => is_var x end.

Ltac emits_if b :=
  first [ has_var b; destruct b
        | let v := eval vm_compute in b in
          lazymatch v with
          | true => change b with true; cbv iota
          | false => change b with false; cbv iota
          end
        | destruct b ].

Ltac emits_step :=
  lazymatch goal with
  | |- emits_only _ (bind _ _) => apply emits_bind; [ | intros ? ]
  | |- emits_only _ (ret _) => apply emits_ret
  | |- emits_only _ (rd _) => apply emits_rd
  | |- emits_only _ (upd _) => apply emits_upd
  | |- emits_only _ (emit _) => apply emits_emit; reflexivity
  | |- emits_only _ (trap _) => apply emits_trap
  | |- emits_only _ (s_thing _) => apply emits_s_thing
  | |- emits_only _ (whenM _ _) => apply emits_whenM
  | |- emits_only _ (if ?b then _ else _) => emits_if b
  | |- emits_only _ (let _ := _ in _) => cbv zeta
  | |- emits_only _ (match ?x with _ => _ end) => destruct x
  | |- emits_only _ (sys_vgui _) => apply emits_emit; reflexivity
  | |- emits_only _ (draw_rect _ _ _ _ _ _) => unfold draw_rect
  | |- emits_only _ (draw_outlinecolor _ _ _ _) => apply emits_emit; reflexivity
  | |- emits_only _ (draw_fillcolor _ _ _ _) => apply emits_emit; reflexivity
  | |- emits_only _ (draw_erase _ _ _) => apply emits_emit; reflexivity
  | |- emits_only _ (SETFLOAT _ _) => apply emits_upd
  | |- emits_only _ (SETSYMBOL _ _) => apply emits_upd
  | |- emits_only _ (outlet_anything _ _) => unfold outlet_anything
  | |- emits_only _ (typedmess _ _ _) => unfold typedmess
  | |- emits_only _ (send_if_bound _ _ _) => unfold send_if_bound
  | |- emits_only _ (mousepad_draw _ _ _) => unfold mousepad_draw
  end.

Ltac emits_tac := repeat emits_step.

Lemma canvas_after_same t rects :
  forallb (fun e => negb (is_item_change e)) t = true ->
  canvas_after t rects = rects.
Proof.
  revert rects. induction t as [ | e t IH]; intros rects H; [reflexivity | ].
  cbn [forallb] in H. apply andb_true_iff in H. destruct H as [He Ht].
  destruct e as [[ ] | | | | | | | | | | | | | | | | ]; cbn [canvas_after];
    try discriminate He; apply IH, Ht.
Qed.

Lemma forallb_not_existsb {A} (f : A -> bool) l :
  forallb (fun e => negb (f e)) l = true -> existsb f l = false.
Proof.
  induction l as [ | a l IH]; [reflexivity | ].
  cbn. intros H. apply andb_true_iff in H. destruct H as [Ha Hl].
  destruct (f a); [discriminate | apply IH, Hl].
Qed.

Lemma canvas_after_create canv o part pix z t rects :
  canvas_after (rect_cmd canv o part pix z 1 :: t) rects
  = canvas_after t (Z.lor rects part).
Proof. destruct pix as [[[x1 y1] x2] y2]. reflexivity. Qed.

Section Canvas.
Variable host : t_host.

(** X15. The vis callback always returns and leaves the state as it is.
    With vis = 0 it sends exactly these commands: delete the base, delete
    the inlet if the send name is "empty", delete the outlet if the receive
    name is "empty" (on the canvas of the glist it is called with), then
    sys_unqueuegui.  With vis != 0 it sends exactly: create the base, create
    the inlet if the send name is "empty", create the outlet if the receive
    name is "empty" (on the canvas of the glist of the object, at the
    coordinates of the pixel layout), then the fill colour of the base.  So
    from any set of rectangles on the canvas, vis = 0 removes those that the
    names call for and no other, and vis != 0 adds those and no other. *)
Theorem mousepad_vis_items (gl vis : Z) (w : world) :
  let mp := obj w in
  let z := zoomfactor mp in
  let canv := glist_getcanvas host (glist mp) in
  let inlet := sym_eqb (sendname mp) symEmpty in
  let outlet := sym_eqb (receivename mp) symEmpty in
  let t :=
    if vis =? 0
    then [Sys_vgui (Tk_delete (glist_getcanvas host gl) (self mp) BASE)]
           ++ (if inlet
               then [Sys_vgui (Tk_delete (glist_getcanvas host gl) (self mp)
                                         INLET)]
               else [])
           ++ (if outlet
               then [Sys_vgui (Tk_delete (glist_getcanvas host gl) (self mp)
                                         OUTLET)]
               else [])
           ++ [Sys_unqueuegui]
    else [rect_cmd canv (self mp) BASE (rect_pix host mp BASE) z 1]
           ++ (if inlet
               then [rect_cmd canv (self mp) INLET (rect_pix host mp INLET) z 1]
               else [])
           ++ (if outlet
               then [rect_cmd canv (self mp) OUTLET (rect_pix host mp OUTLET)
                              z 1]
               else [])
           ++ [Sys_vgui (Tk_itemconfigure_fill canv (self mp) BASE
                                               (intcolor mp))] in
  mousepad_vis host gl vis w = Some (tt, w, t)
  /\ forall rects,
      canvas_after t rects
      = if vis =? 0 then Z.ldiff rects (shown_rects mp)
        else Z.lor rects (shown_rects mp).
Proof.
  cbv zeta. split.
  - destruct w as [mp b]. destruct_mp mp.
    unfold mousepad_vis, rect_pix, rect_cmd. change IOHEIGHT with 3. msimpl.
    destruct (vis =? 0) eqn:Ev; destruct (sym_eqb f_sn symEmpty) eqn:Es;
      destruct (sym_eqb f_rn symEmpty) eqn:Er;
      mrun; reflexivity.
  - intros rects. unfold shown_rects.
    destruct (vis =? 0) eqn:Ev;
      destruct (sym_eqb (sendname (obj w)) symEmpty) eqn:Es;
      destruct (sym_eqb (receivename (obj w)) symEmpty) eqn:Er;
      cbn [app]; rewrite ?canvas_after_create; cbn [canvas_after];
      rewrite ?Z.ldiff_ldiff_l, ?Z.lor_0_r, ?Z.lor_assoc; reflexivity.
Qed.

Lemma no_item_change c :
  match c with
  | Send _ | Receive _ | Vis _ _ => True
  | _ => emits_only (fun e => negb (is_item_change e)) (run host c)
  end.
Proof.
  destruct c; try exact I; cbn [run].
  - unfold mousepad_motion. emits_tac.
  - unfold mousepad_resize, mousepad_size. emits_tac.
  - unfold mousepad_color. emits_tac.
  - unfold mousepad_delta. emits_tac.
  - unfold mousepad_pos. emits_tac.
  - unfold mousepad_status. emits_tac.
  - unfold mousepad_get. emits_tac.
  - unfold mousepad_dirty. emits_tac.
  - unfold mousepad_zoom. emits_tac.
  - unfold mousepad_getrect. emits_tac.
  - unfold mousepad_displace. emits_tac.
  - unfold mousepad_select. emits_tac.
  - unfold mousepad_delete. emits_tac.
  - unfold mousepad_click. emits_tac.
  - unfold mousepad_save. emits_tac.
  - unfold mousepad_properties. emits_tac.
  - unfold mousepad_init_unexpanded. emits_tac.
Qed.

Lemma names_kept c :
  match c with
  | Send _ | Receive _ => True
  | _ => keeps (fun w => (sendname (obj w), receivename (obj w))) (run host c)
  end.
Proof.
  destruct c; try exact I; cbn [run].
  - unfold mousepad_motion. keeps_all.
  - unfold mousepad_resize, mousepad_size. keeps_all.
  - unfold mousepad_color. keeps_all.
  - unfold mousepad_delta. keeps_all.
  - unfold mousepad_pos. keeps_all.
  - unfold mousepad_status. keeps_all.
  - unfold mousepad_get. keeps_all.
  - unfold mousepad_dirty. keeps_all.
  - unfold mousepad_zoom. keeps_all.
  - unfold mousepad_getrect. keeps_all.
  - unfold mousepad_displace. keeps_all.
  - unfold mousepad_select. keeps_all.
  - unfold mousepad_delete. keeps_all.
  - unfold mousepad_vis. keeps_all.
  - unfold mousepad_click. keeps_all.
  - unfold mousepad_save. keeps_all.
  - unfold mousepad_properties. keeps_all.
  - unfold mousepad_init_unexpanded. keeps_all.
Qed.

(** X16. While the glist is visible, every call other than vis keeps the
    rectangles on the canvas in step with the names: if the canvas holds
    the base, the inlet exactly when the send name is "empty" and the
    outlet exactly when the receive name is "empty", then it does so again
    after the call.  For 'send' this needs that expanding the new name
    neither makes it "empty" nor makes "empty" something else, since
    mousepad_send decides on the name before it is expanded. *)
Theorem canvas_in_sync (c : call) (w w' : world) (t : list event) :
  glist_isvisible host (glist (obj w)) = true ->
  match c with
  | Vis _ _ => False
  | Send name =>
      sym_eqb (canvas_realizedollar host (glist (obj w)) (name_arg name))
              symEmpty
      = sym_eqb (name_arg name) symEmpty
  | _ => True
  end ->
  run host c w = Some (tt, w', t) ->
  canvas_after t (shown_rects (obj w)) = shown_rects (obj w').
Proof.
  intros Hv Hc H.
  pose proof (no_item_change c) as N. pose proof (names_kept c) as K.
  destruct c; try contradiction;
    try (rewrite (canvas_after_same _ _ (N _ _ _ _ H));
         pose proof (K _ _ _ _ H) as E; inversion E as [[E1 E2]];
         unfold shown_rects; rewrite E1, E2; reflexivity);
    cbn [run] in H; clear N K.
  - (* send *)
    destruct w as [mp b]. destruct_mp mp. cbn [obj glist] in *.
    revert H. unfold mousepad_send, name_arg, shown_rects in *.
    destruct (sym_eqb name s_) eqn:En;
      match type of Hc with
      | _ = sym_eqb ?x symEmpty =>
          destruct (sym_eqb x symEmpty) eqn:Ex;
            rewrite ?sym_eqb_refl in Ex; try discriminate Ex
      end;
      destruct (sym_eqb f_sn symEmpty) eqn:Es;
      destruct (sym_eqb f_rn symEmpty) eqn:Er;
      mrun; intros H; inversion H; subst; msimpl;
      rewrite ?Hc, ?Es, ?Er; reflexivity.
  - (* receive *)
    destruct w as [mp b]. destruct_mp mp. cbn [obj glist] in *.
    revert H. unfold mousepad_receive, shown_rects in *.
    destruct (sym_eqb name s_) eqn:En;
      destruct (sym_eqb f_sn symEmpty) eqn:Es;
      destruct (sym_eqb f_rn symEmpty) eqn:Er;
      mrun; intros H; inversion H; subst; msimpl;
      rew_bool; reflexivity.
Qed.

Lemma never_draws c :
  match c with
  | Motion _ _ | Status | Get _ | Dirty | Zoom _ | Getrect _ | Delete _
  | Click _ _ _ _ _ _ _ | Save | Properties | Init_unexpanded =>
      emits_only (fun e => negb (is_tk e)) (run host c)
  | _ => True
  end.
Proof.
  destruct c; try exact I; cbn [run].
  - unfold mousepad_motion. emits_tac.
  - unfold mousepad_status. emits_tac.
  - unfold mousepad_get. emits_tac.
  - unfold mousepad_dirty. emits_tac.
  - unfold mousepad_zoom. emits_tac.
  - unfold mousepad_getrect. emits_tac.
  - unfold mousepad_delete. emits_tac.
  - unfold mousepad_click. emits_tac.
  - unfold mousepad_save. emits_tac.
  - unfold mousepad_properties. emits_tac.
  - unfold mousepad_init_unexpanded. emits_tac.
Qed.

(** X17. While the glist of the object is not visible, no call other than
    vis sends a drawing command to the GUI (for select: when the glist it
    is called with is not visible either).  Motion, status, get, dirty,
    zoom, getrect, delete, click, save, properties and the deferred
    initialization never send one, visible or not. *)
Theorem hidden_no_drawing (c : call) (w w' : world) (t : list event) :
  match c with
  | Motion _ _ | Status | Get _ | Dirty | Zoom _ | Getrect _ | Delete _
  | Click _ _ _ _ _ _ _ | Save | Properties | Init_unexpanded => True
  | Vis _ _ => False
  | Select gl _ =>
      glist_isvisible host (glist (obj w)) = false
      /\ glist_isvisible host gl = false
  | _ => glist_isvisible host (glist (obj w)) = false
  end ->
  run host c w = Some (tt, w', t) ->
  existsb is_tk t = false.
Proof.
  intros Hc H. pose proof (never_draws c) as N.
  destruct c; try contradiction;
    try (apply forallb_not_existsb; exact (N _ _ _ _ H));
    clear N; cbn [run] in H; revert H;
    destruct w as [mp b]; destruct_mp mp; cbn [obj glist] in *.
  - (* size *)
    unfold mousepad_resize, bind. rewrite mousepad_size_run.
    mrun; intros H; inversion H; reflexivity.
  - (* color *)
    destruct argv as [ | a rest].
    + intros H; inversion H; reflexivity.
    + rewrite mousepad_color_run. cbn [obj glist]. rewrite Hc.
      intros H; inversion H; reflexivity.
  - unfold mousepad_delta. mrun; intros H; inversion H; reflexivity.
  - unfold mousepad_pos. mrun; intros H; inversion H; reflexivity.
  - unfold mousepad_send.
    destruct (sym_eqb name s_); mrun; intros H; inversion H; reflexivity.
  - unfold mousepad_receive.
    destruct (sym_eqb name s_); mrun; intros H; inversion H; reflexivity.
  - unfold mousepad_displace. mrun; intros H; inversion H; reflexivity.
  - destruct Hc as [Hv Hg].
    unfold mousepad_select. mrun; intros H; inversion H; reflexivity.
Qed.

End Canvas.

(** ** Further properties: the pointer *)

Lemma wrap_wrap_add a b : wrap (wrap a + b) = wrap (a + b).
Proof.
  unfold wrap. f_equal.
  replace ((a + 2 ^ 31) mod 2 ^ 32 - 2 ^ 31 + b + 2 ^ 31)
    with ((a + 2 ^ 31) mod 2 ^ 32 + b) by lia.
  rewrite Zplus_mod_idemp_l. f_equal. lia.
Qed.

Lemma click_then_move x dx p : iadd (isub x p) dx = isub (iadd x dx) p.
Proof.
  unfold iadd, isub.
  rewrite wrap_wrap_add.
  replace (wrap (x + dx) - p) with (wrap (x + dx) + - p) by lia.
  rewrite wrap_wrap_add. f_equal. lia.
Qed.

Lemma wrap_idem z : wrap (wrap z) = wrap z.
Proof. apply wrap_small, wrap_range. Qed.

Section Pointer.
Variable host : t_host.

(** X18. Motion keeps track of the pointer: with a positive zoom factor, a
    click at (xpix, ypix) followed by a motion by (dx, dy) leaves the same
    position values xval and yval as a click at (xpix + (int)dx,
    ypix + (int)dy), in C int arithmetic, also when a sum wraps around. *)
Theorem click_motion_tracks (gl xpix ypix shift alt dbl button : Z)
        (dx dy : t_float) (w : world) :
  0 < zoomfactor (obj w) ->
  exists p,
    xy_after ((_ <- mousepad_click host gl xpix ypix shift alt dbl button ;;
               mousepad_motion dx dy) w) = Some p
    /\ xy_after (mousepad_click host gl (iadd xpix (float2int dx))
                                (iadd ypix (float2int dy))
                                shift alt dbl button w) = Some p.
Proof.
  intros Hz. destruct w as [mp b]. destruct_mp mp. cbn [obj zoomfactor] in Hz.
  unfold mousepad_click, mousepad_motion, xy_after.
  destruct (Z.lor (float2int dx) (float2int dy) =? 0) eqn:E0.
  - apply Z.eqb_eq, Z.lor_eq_0_iff in E0. destruct E0 as [Ex Ey].
    rewrite Ex, Ey.
    assert (W : forall x p, isub (iadd x 0) p = isub x p).
    { intros x p. rewrite <- click_then_move. unfold iadd.
      rewrite Z.add_0_r. apply wrap_idem. }
    destruct (button =? f_bs) eqn:Eb; destruct (button =? 0) eqn:Ebz;
      mrun; eexists; (split; [reflexivity | ]); rewrite !W; reflexivity.
  - destruct (button =? f_bs) eqn:Eb; destruct (button =? 0) eqn:Ebz;
      mrun; eexists; (split; [reflexivity | ]);
      rewrite !click_then_move; reflexivity.
Qed.

(** X19. With a positive zoom factor a click returns 1 and stores the
    button value; a second click with the same button value, wherever the
    pointer is then, returns 1 as well and sends no 'button' message:
    'button' is announced on changes only. *)
Theorem click_button_once (gl xpix ypix shift alt dbl : Z)
        (gl' xpix' ypix' shift' alt' dbl' : Z) (button : Z) (w : world) :
  0 < zoomfactor (obj w) ->
  exists w1 t1 w2 t2,
    mousepad_click host gl xpix ypix shift alt dbl button w = Some (1, w1, t1)
    /\ buttonstate (obj w1) = button
    /\ mousepad_click host gl' xpix' ypix' shift' alt' dbl' button w1
       = Some (1, w2, t2)
    /\ existsb is_button t2 = false.
Proof.
  intros Hz. destruct w as [mp b]. destruct_mp mp. cbn [obj zoomfactor] in Hz.
  unfold mousepad_click.
  pose proof (Z.eqb_refl button) as Er.
  destruct (Z.eqb_spec button f_bs) as [Eb | Eb];
    [subst f_bs | apply Z.eqb_neq in Eb];
    destruct (button =? 0) eqn:Ebz;
    mrun; do 4 eexists;
    (split; [reflexivity | ]); (split; [reflexivity | ]);
    mrun; (split; [reflexivity | reflexivity]).
Qed.

End Pointer.

(** ** Further properties: the save line *)

Lemma name_arg_idem s : name_arg (name_arg s) = name_arg s.
Proof.
  unfold name_arg. destruct (sym_eqb s s_) eqn:E; [reflexivity | ].
  rewrite E. reflexivity.
Qed.

Section SaveLine.
Variable host : t_host.

(** X20. For an object in a state it can reach, with a positive zoom factor,
    mousepad_save writes "#X obj", the position divided by the zoom factor,
    the first atom of the box text, the nominal width and height, the
    unexpanded send and receive names and the colour as int2hexcolor renders
    it, then a semicolon, and leaves the state as it is.  mousepad_new
    called with the five saved arguments returns an object with the same
    width, height and fill colour, whose expanded names are the expansions,
    on the current canvas, of the saved unexpanded names.  Width and height
    are taken up to 2^24, which the float atoms of the save line hold
    exactly also in single precision. *)
Theorem save_line_restores (w : world) (addr : Z) (s : t_symbol)
        (b : list (t_symbol * Z)) :
  reachable w ->
  0 < zoomfactor (obj w) ->
  width (obj w) <= 2 ^ 24 -> height (obj w) <= 2 ^ 24 ->
  let mp := obj w in
  mousepad_save w =
  Some (tt, w,
        [Binbuf_addv
           ([A_SYMBOL "#X"; A_SYMBOL "obj";
             A_FLOAT (int2float (Z.quot (te_xpix mp) (zoomfactor mp)));
             A_FLOAT (int2float (Z.quot (te_ypix mp) (zoomfactor mp)));
             A_SYMBOL (atom_getsymbol (nth 0 (te_binbuf mp) A_NULL))]
              ++ saved_args mp);
         Binbuf_addv [A_SEMI]])
  /\ exists w' t,
      mousepad_new host addr s (saved_args mp) b = Some (tt, w', t)
      /\ width (obj w') = width mp
      /\ height (obj w') = height mp
      /\ intcolor (obj w') = intcolor mp
      /\ sendname (obj w')
         = canvas_realizedollar host (canvas_getcurrent host)
                                (name_arg (sendname_unexpanded mp))
      /\ receivename (obj w')
         = canvas_realizedollar host (canvas_getcurrent host)
                                (name_arg (receivename_unexpanded mp)).
Proof.
  intros R Hz Hw24 Hh24. apply reachable_live in R.
  destruct R as (L1 & L2 & _ & _ & L5 & _). cbv zeta. split.
  - destruct w as [mp b0]. destruct_mp mp. unfold mousepad_save.
    cbn [obj zoomfactor] in Hz. mrun. reflexivity.
  - destruct (mousepad_new_run host addr s (saved_args (obj w)) b) as [t E].
    cbv zeta in E. eexists. exists t. split; [exact E | ].
    cbn [obj]. unfold new_object.
    cbn [width height intcolor sendname receivename].
    assert (Ew : size_width (saved_args (obj w)) = width (obj w)).
    { unfold size_width, saved_args. cbn [nth_error size_dim].
      rewrite cast_int_int2float by (unfold in_int, INT_MIN; lia). lia. }
    assert (Eh : size_height (saved_args (obj w)) = height (obj w)).
    { unfold size_height, saved_args. cbn [nth_error size_dim].
      rewrite cast_int_int2float by (unfold in_int, INT_MIN; lia). lia. }
    assert (Ec : color_arg (A_SYMBOL (int2hexcolor (intcolor (obj w))))
                 = intcolor (obj w)).
    { pose proof (hexcolor2int_of_digits (intcolor (obj w))) as Hr.
      rewrite (nibbles_recompose _ L5) in Hr.
      rewrite <- Hr at 2. rewrite int2hexcolor_digits. reflexivity. }
    split; [exact Ew | ]. split; [exact Eh | ].
    split; [exact Ec | ].
    rewrite argc_of_saved.
    split; reflexivity.
Qed.

(** X21. A name set by a 'send' or 'receive' message survives saving: for an
    object on the current canvas, 'send name' returns, and mousepad_new
    called with the five arguments that mousepad_save writes for the
    resulting state gives an object with the same expanded send name;
    likewise 'receive name' and the expanded receive name. *)
Theorem message_names_restored (name : t_symbol) (w : world) (addr : Z)
        (s : t_symbol) (b : list (t_symbol * Z)) :
  glist (obj w) = canvas_getcurrent host ->
  (exists w1 t1 w' t,
      mousepad_send host name w = Some (tt, w1, t1)
      /\ sendname_unexpanded (obj w1) = name_arg name
      /\ mousepad_new host addr s (saved_args (obj w1)) b = Some (tt, w', t)
      /\ sendname (obj w') = sendname (obj w1))
  /\ (exists w1 t1 w' t,
         mousepad_receive host name w = Some (tt, w1, t1)
         /\ receivename_unexpanded (obj w1) = name_arg name
         /\ mousepad_new host addr s (saved_args (obj w1)) b = Some (tt, w', t)
         /\ receivename (obj w') = receivename (obj w1)).
Proof.
  intros Hg. split.
  - pose proof (mousepad_send_run host name w) as E1. cbv zeta in E1.
    match type of E1 with
    | _ = Some (tt, ?w1, ?t1) =>
        destruct (mousepad_new_run host addr s (saved_args (obj w1)) b)
          as [t E2]; cbv zeta in E2;
          exists w1, t1; eexists; exists t
    end.
    split; [exact E1 | ]. split; [reflexivity | ]. split; [exact E2 | ].
    cbn [obj]. unfold new_object. rewrite argc_of_saved.
    destruct w as [mp b0]. destruct_mp mp. cbn [obj glist] in Hg.
    subst f_gl.
    transitivity (canvas_realizedollar host (canvas_getcurrent host)
                                       (name_arg (name_arg name)));
      [reflexivity | rewrite name_arg_idem; reflexivity].
  - pose proof (mousepad_receive_exact host name w) as E1. cbv zeta in E1.
    match type of E1 with
    | _ = Some (tt, ?w1, ?t1) =>
        destruct (mousepad_new_run host addr s (saved_args (obj w1)) b)
          as [t E2]; cbv zeta in E2;
          exists w1, t1; eexists; exists t
    end.
    split; [exact E1 | ]. split; [reflexivity | ]. split; [exact E2 | ].
    cbn [obj]. unfold new_object. rewrite argc_of_saved.
    destruct w as [mp b0]. destruct_mp mp. cbn [obj glist] in Hg.
    subst f_gl.
    transitivity (canvas_realizedollar host (canvas_getcurrent host)
                                       (name_arg (name_arg name)));
      [reflexivity | rewrite name_arg_idem; reflexivity].
Qed.

End SaveLine.

(** ** The statements at concrete inputs *)

Lemma demo_world_reachable : reachable demo_world.
Proof.
  eapply (reach_call demo_host _ Init_unexpanded).
  - eapply reach_host.
    + eapply reach_host.
      * eapply (reach_new demo_host 16 "mousepad" (tl demo_box)
                          [("pad-out", 99)]).
        -- reflexivity.
        -- vm_compute. reflexivity.
      * apply (host_moves _ 10 20).
    + apply (host_sets_binbuf _ demo_box).
  - vm_compute. reflexivity.
Defined.

Lemma send_only_world_reachable : reachable send_only_world.
Proof.
  eapply (reach_call demo_host _ Init_unexpanded).
  - eapply reach_host.
    + eapply (reach_new demo_host 16 "mousepad" (tl send_only_box) []).
      * reflexivity.
      * vm_compute. reflexivity.
    + apply (host_sets_binbuf _ send_only_box).
  - vm_compute. reflexivity.
Defined.

Lemma int2hexcolor_roundtrip_witness :
  0 <= 0xAB12CD <= 0xFFFFFF
  /\ int2hexcolor 0xAB12CD = "#AB12CD"
  /\ hexcolor2int (int2hexcolor 0xAB12CD) = 0xAB12CD.
Proof.
  assert (H : 0 <= 0xAB12CD <= 0xFFFFFF) by lia.
  split; [exact H | ]. split; [reflexivity | ].
  apply (int2hexcolor_roundtrip 0xAB12CD H).
Defined.

Lemma hexcolor2int_shorthand_witness :
  is_hexdigit "a" = true /\ is_hexdigit "B" = true /\ is_hexdigit "7" = true
  /\ hexcolor2int "#aB7" = 0xAABB77
  /\ hexcolor2int "#aB7" = hexcolor2int "#aaBB77".
Proof.
  split; [reflexivity | ]. split; [reflexivity | ]. split; [reflexivity | ].
  exact (hexcolor2int_shorthand "a" "B" "7" eq_refl eq_refl eq_refl).
Defined.

Lemma mousepad_motion_witness :
  0 < zoomfactor (obj demo_world)
  /\ mousepad_motion (3 # 1) (-4 # 1) demo_world =
     Some (tt,
           mk_world
             (set_out (A_FLOAT (3 # 1), A_FLOAT (-4 # 1), A_NULL)
                      (set_yval (-4) (set_xval 3 demo_pad)))
             (bindings demo_world),
           [Outlet_anything "drag" [A_FLOAT (3 # 1); A_FLOAT (-4 # 1)];
            Typedmess "pad-out" "drag" [A_FLOAT (3 # 1); A_FLOAT (-4 # 1)];
            Outlet_anything "deltas" [A_FLOAT (3 # 1); A_FLOAT (-4 # 1)];
            Typedmess "pad-out" "deltas" [A_FLOAT (3 # 1); A_FLOAT (-4 # 1)]]).
Proof.
  split; [reflexivity | ].
  exact (mousepad_motion_spec demo_world (3 # 1) (-4 # 1) eq_refl).
Defined.

Lemma mousepad_click_witness :
  0 < zoomfactor (obj demo_world)
  /\ mousepad_click demo_host 1 15 27 0 5 0 1 demo_world =
     Some (1,
           mk_world
             (set_out (A_FLOAT (5 # 1), A_FLOAT (7 # 1), A_FLOAT (1 # 1))
                (set_yval 7 (set_xval 5 (set_buttonstate 1 demo_pad))))
             (bindings demo_world),
           [Outlet_anything "button"
              [A_FLOAT (1 # 1); A_FLOAT (0 # 1); A_FLOAT (1 # 1)];
            Typedmess "pad-out" "button"
              [A_FLOAT (1 # 1); A_FLOAT (0 # 1); A_FLOAT (1 # 1)];
            Glist_grab 1 (15 # 1) (27 # 1);
            Outlet_anything "drag" [A_FLOAT (5 # 1); A_FLOAT (7 # 1)];
            Typedmess "pad-out" "drag" [A_FLOAT (5 # 1); A_FLOAT (7 # 1)]]).
Proof.
  split; [reflexivity | ].
  exact (mousepad_click_spec demo_host demo_world 1 15 27 0 5 0 1 eq_refl).
Defined.

Lemma size_invariant_witness :
  reachable demo_world
  /\ pixw demo_pad = imul (width demo_pad) (zoomfactor demo_pad)
  /\ mousepad_size [A_FLOAT (-3 # 1)] demo_world =
     Some (tt,
           mk_world (set_pixh 1 (set_pixw 1 (set_height 1 (set_width 1 demo_pad))))
                    (bindings demo_world), []).
Proof.
  split; [exact demo_world_reachable | ].
  destruct (size_invariant demo_world demo_world_reachable) as [(_ & _ & H & _) S].
  split; [exact H | exact (S [A_FLOAT (-3 # 1)])].
Defined.

Lemma receive_binding_invariant_witness :
  reachable demo_world
  /\ is_bound "to-mousepad-0X10" 16 (bindings demo_world) = true
  /\ is_bound "pad-in" 16 (bindings demo_world) = true
  /\ forall s, is_bound s 16 (unbound demo_pad (bindings demo_world)) = false.
Proof.
  split; [exact demo_world_reachable | ].
  destruct (receive_binding_invariant demo_host demo_world demo_world_reachable)
    as [(_ & H1 & H2) [_ [_ H3]]].
  split; [exact H1 | ]. split; [exact H2 | exact H3].
Defined.

(** C5.  The claim fails on a box [mousepad 64 64 foo]: the object has the
    send name "foo", but with four atoms in the box text the deferred
    initialization leaves the unexpanded names "empty", so mousepad_save
    writes "empty" for the send name, and a mousepad built from the five
    saved arguments has the send name "empty". *)
Theorem save_restore_loses_send_name :
  reachable send_only_world
  /\ te_binbuf (obj send_only_world)
     = [A_SYMBOL "mousepad"; A_FLOAT (64 # 1); A_FLOAT (64 # 1); A_SYMBOL "foo"]
  /\ sendname (obj send_only_world) = "foo"
  /\ mousepad_init_unexpanded demo_host send_only_world
     = Some (tt, send_only_world, [])
  /\ mousepad_save send_only_world =
     Some (tt, send_only_world,
           [Binbuf_addv
              [A_SYMBOL "#X"; A_SYMBOL "obj"; A_FLOAT (0 # 1); A_FLOAT (0 # 1);
               A_SYMBOL "mousepad"; A_FLOAT (64 # 1); A_FLOAT (64 # 1);
               A_SYMBOL "empty"; A_SYMBOL "empty"; A_SYMBOL "#DDDDDD"];
            Binbuf_addv [A_SEMI]])
  /\ option_map (fun r => sendname (obj (snd (fst r))))
                (mousepad_new demo_host 32 "mousepad"
                              [A_FLOAT (64 # 1); A_FLOAT (64 # 1);
                               A_SYMBOL "empty"; A_SYMBOL "empty";
                               A_SYMBOL "#DDDDDD"] [])
     = Some "empty".
Proof.
  split; [exact send_only_world_reachable | ].
  split; [reflexivity | ]. split; [reflexivity | ].
  split; [ | split]; vm_compute; reflexivity.
Qed.

(** The two casts where the truncated value is not an int: the plain cast of
    'size', 'color', 'pos', 'delta' and zoom gives INT_MIN, so that 'size 5e9'
    sets the width 1 and 'color 3e9' the colour 0; the cast through t_int of
    the motion callback keeps the low 32 bits. *)
Example cast_out_of_range :
  cast_int (5000000000 # 1) = INT_MIN
  /\ size_width [A_FLOAT (5000000000 # 1)] = 1
  /\ color_arg (A_FLOAT (3000000000 # 1)) = 0
  /\ cast_int (-7 # 2) = -3
  /\ float2int (4294967808 # 1) = 512.
Proof. repeat split. Qed.


Lemma hexcolor2int_six_chars_witness :
  Ascii.eqb "1" Ascii.zero = false /\ is_hexdigit "g" = false
  /\ hexcolor2int "#1g2h3i and more" = 0x102030.
Proof.
  split; [reflexivity | ]. split; [reflexivity | ].
  exact (hexcolor2int_six_chars "1" "g" "2" "h" "3" "i" " and more"
           eq_refl eq_refl eq_refl eq_refl eq_refl eq_refl).
Defined.

Lemma fixed_names_identify_witness :
  16 mod 2 ^ 64 <> 32 mod 2 ^ 64
  /\ exists id1 sn1 rn1 id2 sn2 rn2,
      fixed_names_after (mousepad_new demo_host 16 "mousepad" (tl demo_box) [])
      = Some (id1, sn1, rn1)
      /\ fixed_names_after (mousepad_new demo_host 32 "mousepad" [] [])
         = Some (id2, sn2, rn2)
      /\ sscanf_lX id1 = 16 mod 2 ^ 64
      /\ sscanf_lX id2 = 32 mod 2 ^ 64
      /\ id1 <> id2 /\ sn1 <> sn2 /\ rn1 <> rn2.
Proof.
  assert (H : 16 mod 2 ^ 64 <> 32 mod 2 ^ 64) by (vm_compute; lia).
  split; [exact H | ].
  exact (fixed_names_identify demo_host 16 32 "mousepad" "mousepad"
           (tl demo_box) [] [] [] H).
Defined.

Lemma bindings_exact_witness :
  reachable demo_world
  /\ bound_count "pad-in" 16 (bindings demo_world) = 1%nat
  /\ bound_count "pad-out" 16 (bindings demo_world) = 0%nat.
Proof.
  split; [exact demo_world_reachable | ].
  split;
    [ exact (bindings_exact demo_world "pad-in" demo_world_reachable)
    | exact (bindings_exact demo_world "pad-out" demo_world_reachable) ].
Defined.

Lemma color_invariant_witness :
  reachable demo_world
  /\ 0 <= intcolor demo_pad <= 0xFFFFFF
  /\ hexcolor2int (int2hexcolor 0xAABBCC) = 0xAABBCC.
Proof.
  split; [exact demo_world_reachable | ].
  destruct (color_invariant demo_world demo_world_reachable) as (H1 & H2 & _).
  split; [exact H1 | exact H2].
Defined.

Lemma settings_frame_witness :
  exists w',
    run demo_host (Send "elsewhere") demo_world = Some (tt, w', [])
    /\ sendname (obj w') = "elsewhere"
    /\ bindings w' = bindings demo_world
    /\ receivename (obj w') = "pad-in"
    /\ intcolor (obj w') = 0xAABBCC
    /\ width (obj w') = 100 /\ height (obj w') = 50
    /\ zoomfactor (obj w') = 1.
Proof.
  eexists.
  assert (H : run demo_host (Send "elsewhere") demo_world
              = Some (tt,
                      mk_world (set_sendname "elsewhere"
                                  (set_sendname_unexpanded "elsewhere" demo_pad))
                               (bindings demo_world), []))
    by (vm_compute; reflexivity).
  split; [exact H | ]. split; [reflexivity | ].
  destruct (settings_frame demo_host _ _ _ _ H)
    as (_ & _ & _ & _ & _ & (Hb & Hr) & Hc & (Hw & Hh) & (_ & _ & Hz)).
  split; [exact Hb | ]. split; [exact Hr | ]. split; [exact Hc | ].
  split; [exact Hw | ]. split; [exact Hh | exact Hz].
Defined.

Lemma display_callbacks_pure_witness :
  exists w',
    run demo_host (Select 1 1) demo_world
    = Some (tt, w', [Sys_vgui (Tk_itemconfigure_outline 2 16 1 255)])
    /\ w' = demo_world.
Proof.
  eexists.
  assert (H : run demo_host (Select 1 1) demo_world
              = Some (tt, demo_world,
                      [Sys_vgui (Tk_itemconfigure_outline 2 16 1 255)]))
    by (vm_compute; reflexivity).
  split; [exact H | ].
  exact (display_callbacks_pure demo_host (Select 1 1) _ _ _ I H).
Defined.

Lemma mousepad_get_witness :
  0 < zoomfactor (obj demo_world)
  /\ trace_of (mousepad_get demo_host "pos" demo_world)
     = Some [Outlet_anything "pos" [A_FLOAT (10 # 1); A_FLOAT (20 # 1)];
             Typedmess "pad-out" "pos" [A_FLOAT (10 # 1); A_FLOAT (20 # 1)]]
  /\ mousepad_get demo_host "hello" demo_world = Some (tt, demo_world, []).
Proof.
  split; [reflexivity | ].
  split;
    [ exact (proj1 (mousepad_get_spec demo_host "pos" demo_world eq_refl))
    | exact (proj2 (mousepad_get_spec demo_host "hello" demo_world eq_refl)
                   eq_refl) ].
Defined.

Lemma mousepad_pos_save_witness :
  0 < zoomfactor (obj demo_world)
  /\ in_int (30 * zoomfactor (obj demo_world))
  /\ in_int (40 * zoomfactor (obj demo_world))
  /\ te_pix demo_host 30 = 30 /\ te_pix demo_host 40 = 40
  /\ exists w' t,
      mousepad_pos demo_host (30 # 1) (40 # 1) demo_world = Some (tt, w', t)
      /\ trace_of (mousepad_save w') =
         Some [Binbuf_addv
                 [A_SYMBOL "#X"; A_SYMBOL "obj";
                  A_FLOAT (30 # 1); A_FLOAT (40 # 1);
                  A_SYMBOL "mousepad"; A_FLOAT (100 # 1); A_FLOAT (50 # 1);
                  A_SYMBOL "pad-out"; A_SYMBOL "pad-in"; A_SYMBOL "#AABBCC"];
               Binbuf_addv [A_SEMI]].
Proof.
  assert (Hx : in_int (30 * zoomfactor (obj demo_world)))
    by (vm_compute; split; discriminate).
  assert (Hy : in_int (40 * zoomfactor (obj demo_world)))
    by (vm_compute; split; discriminate).
  split; [reflexivity | ]. split; [exact Hx | ]. split; [exact Hy | ].
  split; [reflexivity | ]. split; [reflexivity | ].
  exact (mousepad_pos_save demo_host (30 # 1) (40 # 1) demo_world
           eq_refl Hx Hy eq_refl eq_refl).
Defined.

Lemma canvas_in_sync_witness :
  glist_isvisible demo_host (glist (obj demo_world)) = true
  /\ shown_rects (obj demo_world) = BASE
  /\ exists w',
      run demo_host (Receive "empty") demo_world
      = Some (tt, w',
              [Pd_unbind "pad-in";
               Sys_vgui (Tk_create_rectangle 2 10 67 17 70 1 16 OUTLET);
               Sys_vgui (Tk_itemconfigure_fill 2 16 BASE 0xAABBCC)])
      /\ canvas_after
           [Pd_unbind "pad-in";
            Sys_vgui (Tk_create_rectangle 2 10 67 17 70 1 16 OUTLET);
            Sys_vgui (Tk_itemconfigure_fill 2 16 BASE 0xAABBCC)] BASE
         = shown_rects (obj w')
      /\ shown_rects (obj w') = Z.lor BASE OUTLET.
Proof.
  split; [reflexivity | ]. split; [reflexivity | ].
  eexists.
  assert (H : run demo_host (Receive "empty") demo_world
              = Some (tt,
                      mk_world (set_receivename "empty"
                                  (set_receivename_unexpanded "empty" demo_pad))
                               [("to-mousepad-0X10", 16); ("pad-out", 99)],
                      [Pd_unbind "pad-in";
                       Sys_vgui (Tk_create_rectangle 2 10 67 17 70 1 16 OUTLET);
                       Sys_vgui (Tk_itemconfigure_fill 2 16 BASE 0xAABBCC)]))
    by (vm_compute; reflexivity).
  split; [exact H | ].
  split; [ | reflexivity].
  exact (canvas_in_sync demo_host (Receive "empty") _ _ _ eq_refl I H).
Defined.

Lemma hidden_no_drawing_witness :
  glist_isvisible hidden_host (glist (obj demo_world)) = false
  /\ exists w',
      run hidden_host (Receive "other") demo_world
      = Some (tt, w', [Pd_unbind "pad-in"; Pd_bind "other"])
      /\ existsb is_tk [Pd_unbind "pad-in"; Pd_bind "other"] = false.
Proof.
  split; [reflexivity | ].
  eexists.
  assert (H : run hidden_host (Receive "other") demo_world
              = Some (tt,
                      mk_world (set_receivename "other"
                                  (set_receivename_unexpanded "other" demo_pad))
                               [("other", 16); ("to-mousepad-0X10", 16);
                                ("pad-out", 99)],
                      [Pd_unbind "pad-in"; Pd_bind "other"]))
    by (vm_compute; reflexivity).
  split; [exact H | ].
  exact (hidden_no_drawing hidden_host (Receive "other") _ _ _ eq_refl H).
Defined.

Lemma click_motion_tracks_witness :
  0 < zoomfactor (obj demo_world)
  /\ xy_after ((_ <- mousepad_click demo_host 1 15 27 0 0 0 1 ;;
                mousepad_motion (3 # 1) (-4 # 1)) demo_world) = Some (8, 3)
  /\ xy_after (mousepad_click demo_host 1 18 23 0 0 0 1 demo_world)
     = Some (8, 3).
Proof.
  split; [reflexivity | ].
  destruct (click_motion_tracks demo_host 1 15 27 0 0 0 1 (3 # 1) (-4 # 1)
              demo_world eq_refl) as (p & H1 & H2).
  assert (Ep : p = (8, 3)) by (vm_compute in H1; inversion H1; reflexivity).
  subst p. split; [exact H1 | exact H2].
Defined.

Lemma click_button_once_witness :
  0 < zoomfactor (obj demo_world)
  /\ exists w1 t1 w2 t2,
      mousepad_click demo_host 1 15 27 0 0 0 1 demo_world = Some (1, w1, t1)
      /\ buttonstate (obj w1) = 1
      /\ mousepad_click demo_host 1 40 41 0 0 0 1 w1 = Some (1, w2, t2)
      /\ existsb is_button t2 = false.
Proof.
  split; [reflexivity | ].
  exact (click_button_once demo_host 1 15 27 0 0 0 1 40 41 0 0 0 1 demo_world
           eq_refl).
Defined.

Lemma save_line_restores_witness :
  reachable demo_world /\ 0 < zoomfactor (obj demo_world)
  /\ width (obj demo_world) <= 2 ^ 24 /\ height (obj demo_world) <= 2 ^ 24
  /\ mousepad_save demo_world =
     Some (tt, demo_world,
           [Binbuf_addv
              [A_SYMBOL "#X"; A_SYMBOL "obj"; A_FLOAT (10 # 1); A_FLOAT (20 # 1);
               A_SYMBOL "mousepad"; A_FLOAT (100 # 1); A_FLOAT (50 # 1);
               A_SYMBOL "pad-out"; A_SYMBOL "pad-in"; A_SYMBOL "#AABBCC"];
            Binbuf_addv [A_SEMI]])
  /\ exists w' t,
      mousepad_new demo_host 32 "mousepad" (saved_args demo_pad) []
      = Some (tt, w', t)
      /\ width (obj w') = 100 /\ height (obj w') = 50
      /\ intcolor (obj w') = 0xAABBCC
      /\ sendname (obj w') = "pad-out" /\ receivename (obj w') = "pad-in".
Proof.
  assert (Hw : width (obj demo_world) <= 2 ^ 24) by (vm_compute; discriminate).
  assert (Hh : height (obj demo_world) <= 2 ^ 24) by (vm_compute; discriminate).
  split; [exact demo_world_reachable | ]. split; [reflexivity | ].
  split; [exact Hw | ]. split; [exact Hh | ].
  exact (save_line_restores demo_host demo_world 32 "mousepad" []
                            demo_world_reachable eq_refl Hw Hh).
Defined.

Lemma message_names_restored_witness :
  glist (obj demo_world) = canvas_getcurrent demo_host
  /\ (exists w1 t1 w' t,
         mousepad_send demo_host "elsewhere" demo_world = Some (tt, w1, t1)
         /\ sendname_unexpanded (obj w1) = "elsewhere"
         /\ mousepad_new demo_host 32 "mousepad" (saved_args (obj w1)) []
            = Some (tt, w', t)
         /\ sendname (obj w') = sendname (obj w1))
  /\ (exists w1 t1 w' t,
         mousepad_receive demo_host "elsewhere" demo_world = Some (tt, w1, t1)
         /\ receivename_unexpanded (obj w1) = "elsewhere"
         /\ mousepad_new demo_host 32 "mousepad" (saved_args (obj w1)) []
            = Some (tt, w', t)
         /\ receivename (obj w') = receivename (obj w1)).
Proof.
  split; [reflexivity | ].
  exact (message_names_restored demo_host "elsewhere" demo_world 32 "mousepad"
                                [] eq_refl).
Defined.
